(** * Samples/download_testset.py: the SpatialLM3D sample downloader

    A shallow embedding of the script and the properties of its four
    components: the remote catalog lister, the file fetcher, the summary
    writer and the command-line entry point.

    Modelling conventions.
    - A Python [str] is a [string]: a sequence of 8-bit characters (for text
      outside ASCII, its UTF-8 encoding, whose byte order agrees with the
      order of code points that Python compares strings by).
    - A [pathlib.Path] is the list of its components from the root, POSIX
      flavour; the output directory is given absolute and [resolve()] is the
      identity (no symbolic links, no relative paths).
    - The filesystem is a finite map from paths to nodes; the operations
      follow POSIX without permissions.
    - The two functions of [huggingface_hub] are oracles of the environment:
      they answer with a result or with the message of an exception derived
      from [Exception].
    - Effects are threaded through a state-and-exception monad over a
      [world]: the filesystem, the lines printed so far, and the log of the
      calls made to the environment.
    - [print] does not fail; asynchronous interrupts are not modelled;
      what is written to [stderr] is not recorded.
    - [parser.parse_args()] is taken by its three outcomes (the option
      record, the help text, a usage error), not by its grammar: [main] is
      the function from the record on, [main_argv] the whole of it. *)

From Stdlib Require Import Ascii.
From stdpp Require Import gmap strings list sorting pretty.

Open Scope string_scope.
Open Scope list_scope.

(** * The model *)

(** ** Strings *)

(** [s.endswith(suffix)] *)
Definition endswith (s suffix : string) : bool :=
  let n := String.length s in
  let m := String.length suffix in
  if (m <=? n)%nat then String.eqb (String.substring (n - m) m s) suffix else false.

(** [s * n] for a string [s] *)
Fixpoint str_mul (s : string) (n : nat) : string :=
  match n with
  | O => ""
  | S n' => s +:+ str_mul s n'
  end.

(** [sep.join(ls)] *)
Fixpoint str_join (sep : string) (ls : list string) : string :=
  match ls with
  | [] => ""
  | [x] => x
  | x :: rest => x +:+ sep +:+ str_join sep rest
  end.

(** [s.split("/")] *)
Fixpoint split_slash_go (cur : string) (s : string) : list string :=
  match s with
  | EmptyString => [String.rev cur]
  | String c s' =>
      if Ascii.eqb c "/"%char then String.rev cur :: split_slash_go "" s'
      else split_slash_go (String c cur) s'
  end.
Definition split_slash (s : string) : list string := split_slash_go "" s.

(** [sorted(l)] for a list of strings: the order is [String.le], the
    lexicographic order on character codes; Python's sort is a merge sort
    too, and the result does not depend on the algorithm (see
    [sorted_unique] below). *)
Definition sorted (l : list string) : list string := merge_sort String.le l.

(** ** Paths *)

Abbreviation path := (list string).

(** [str(p)] *)
Definition str_path (p : path) : string := "/" +:+ str_join "/" p.

(** [p.name]: the final component, empty for the root *)
Definition path_name (p : path) : string := default "" (last p).

(** [p.parent]: the root is its own parent *)
Definition path_parent (p : path) : path := take (length p - 1) p.

(** [p / name] for a [name] without separator: joining the empty string
    leaves [p] as it is *)
Definition path_join (p : path) (name : string) : path :=
  if decide (name = "") then p else p ++ [name].

(** [Path(s).parts] for a relative [s]: empty and ["."] components vanish *)
Definition path_parts (s : string) : list string :=
  filter (λ c, c ≠ "" ∧ c ≠ ".") (split_slash s).

(** [Path(s).name] *)
Definition str_name (s : string) : string := path_name (path_parts s).

(** ** The filesystem *)

(** A regular file holds either text written by this program or a payload
    that is opaque but for its size (a downloaded point cloud). *)
Inductive payload : Type :=
  | Opaque (size : N)
  | Text (data : string).

Inductive node : Type :=
  | File (d : payload)
  | Dir.

Global Instance payload_eq_dec : EqDecision payload.
Proof. solve_decision. Defined.
Global Instance node_eq_dec : EqDecision node.
Proof. solve_decision. Defined.

Abbreviation filesystem := (gmap path node).

(** [st_size] of a directory entry is the block size of common filesystems *)
Definition dir_size : N := 4096.

Definition st_size (n : node) : N :=
  match n with
  | File (Opaque sz) => sz
  | File (Text s) => N.of_nat (String.length s)
  | Dir => dir_size
  end.

(** The root is a directory of every filesystem. *)
Definition fs_lookup (fs : filesystem) (p : path) : option node :=
  match p with
  | [] => Some Dir
  | _ => fs !! p
  end.

Definition fs_is_dir (fs : filesystem) (p : path) : bool :=
  bool_decide (fs_lookup fs p = Some Dir).

(** [p.exists()] *)
Definition fs_exists (fs : filesystem) (p : path) : bool :=
  bool_decide (is_Some (fs_lookup fs p)).

(** An entry strictly below [p] *)
Definition below (p q : path) : Prop := p `prefix_of` q ∧ p ≠ q.

Global Instance below_dec p q : Decision (below p q).
Proof. unfold below. apply _. Defined.

Definition fs_is_empty_dir (fs : filesystem) (p : path) : bool :=
  fs_is_dir fs p && bool_decide (map_Forall (λ q _, ¬ below p q) fs).

Definition enoent (p : path) : string :=
  "[Errno 2] No such file or directory: '" +:+ str_path p +:+ "'".
Definition enoent2 (p q : path) : string :=
  "[Errno 2] No such file or directory: '" +:+ str_path p +:+ "' -> '"
    +:+ str_path q +:+ "'".
Definition eisdir (p : path) : string :=
  "[Errno 21] Is a directory: '" +:+ str_path p +:+ "'".
Definition eisdir2 (p q : path) : string :=
  "[Errno 21] Is a directory: '" +:+ str_path p +:+ "' -> '"
    +:+ str_path q +:+ "'".
Definition enotdir (p : path) : string :=
  "[Errno 20] Not a directory: '" +:+ str_path p +:+ "'".
Definition enotdir2 (p q : path) : string :=
  "[Errno 20] Not a directory: '" +:+ str_path p +:+ "' -> '"
    +:+ str_path q +:+ "'".
Definition enotempty (p : path) : string :=
  "[Errno 39] Directory not empty: '" +:+ str_path p +:+ "'".
Definition enotempty2 (p q : path) : string :=
  "[Errno 39] Directory not empty: '" +:+ str_path p +:+ "' -> '"
    +:+ str_path q +:+ "'".
Definition eexist (p : path) : string :=
  "[Errno 17] File exists: '" +:+ str_path p +:+ "'".
Definition ebusy (p : path) : string :=
  "[Errno 16] Device or resource busy: '" +:+ str_path p +:+ "'".
Definition einval2 (p q : path) : string :=
  "[Errno 22] Invalid argument: '" +:+ str_path p +:+ "' -> '"
    +:+ str_path q +:+ "'".

(** [p.stat().st_size] *)
Definition fs_stat_size (fs : filesystem) (p : path) : string + N :=
  match fs_lookup fs p with
  | Some n => inr (st_size n)
  | None => inl (enoent p)
  end.

(** The entries of [fs] at or below [src], moved to [dst] *)
Definition fs_move_tree (fs : filesystem) (src dst : path) : filesystem :=
  let moved :=
    omap (λ kv : path * node,
            if decide (src `prefix_of` kv.1)
            then Some (dst ++ drop (length src) kv.1, kv.2) else None)
         (map_to_list fs) in
  list_to_map moved ∪ filter (λ kv : path * node, ¬ src `prefix_of` kv.1) fs.

(** [src.rename(dst)], that is [os.rename]: a file replaces an existing
    file, never a directory; a directory replaces only an empty directory. *)
Definition fs_rename (fs : filesystem) (src dst : path) : string + filesystem :=
  match src with
  | [] => inl (ebusy src)
  | _ =>
    match fs !! src with
    | None => inl (enoent2 src dst)
    | Some (File d) =>
        if negb (fs_exists fs (path_parent dst)) then inl (enoent2 src dst)
        else if negb (fs_is_dir fs (path_parent dst)) then inl (enotdir2 src dst)
        else if fs_is_dir fs dst then inl (eisdir2 src dst)
        else inr (<[dst := File d]> (delete src fs))
    | Some Dir =>
        if decide (src = dst) then inr fs
        else if decide (src `prefix_of` dst) then inl (einval2 src dst)
        else if negb (fs_exists fs (path_parent dst)) then inl (enoent2 src dst)
        else if negb (fs_is_dir fs (path_parent dst)) then inl (enotdir2 src dst)
        else if negb (fs_exists fs dst) then inr (fs_move_tree fs src dst)
        else if negb (fs_is_dir fs dst) then inl (enotdir2 src dst)
        else if fs_is_empty_dir fs dst then inr (fs_move_tree (delete dst fs) src dst)
        else inl (enotempty2 src dst)
    end
  end.

(** [p.rmdir()] *)
Definition fs_rmdir (fs : filesystem) (p : path) : string + filesystem :=
  match p with
  | [] => inl (ebusy p)
  | _ =>
    match fs !! p with
    | None => inl (enoent p)
    | Some (File _) => inl (enotdir p)
    | Some Dir =>
        if fs_is_empty_dir fs p then inr (delete p fs) else inl (enotempty p)
    end
  end.

(** [p.mkdir(parents=True, exist_ok=True)]: walks down from the root,
    [base] being the part already known to be a directory. *)
Fixpoint fs_mkdirs (fs : filesystem) (base : path) (rest : list string)
  : string + filesystem :=
  match rest with
  | [] => inr fs
  | c :: rest' =>
      let p := base ++ [c] in
      match fs !! p with
      | Some Dir => fs_mkdirs fs p rest'
      | Some (File _) =>
          match rest' with
          | [] => inl (eexist p)
          | _ => inl (enotdir (p ++ rest'))
          end
      | None => fs_mkdirs (<[p := Dir]> fs) p rest'
      end
  end.

Definition fs_mkdir_parents_exist_ok (fs : filesystem) (p : path)
  : string + filesystem :=
  fs_mkdirs fs [] p.

(** [p.write_text(data)] *)
Definition fs_write_text (fs : filesystem) (p : path) (data : string)
  : string + filesystem :=
  if fs_is_dir fs p then inl (eisdir p)
  else if negb (fs_exists fs (path_parent p)) then inl (enoent p)
  else if negb (fs_is_dir fs (path_parent p)) then inl (enotdir p)
  else inr (<[p := File (Text data)]> fs).

(** ** Formatting *)

Definition nl : string := String (ascii_of_nat 10) "".
Definition dquote : string := String (ascii_of_nat 34) "".

(** The text of a block of lines, each ended by a newline *)
Definition unlines (ls : list string) : string :=
  foldr (λ l acc, l +:+ nl +:+ acc) "" ls.

(** [num / den] rounded to the nearest integer, ties to even *)
Definition round_half_even (num den : N) : N :=
  let q := (num `div` den)%N in
  let r := (num `mod` den)%N in
  if (2 * r <? den)%N then q
  else if (den <? 2 * r)%N then (q + 1)%N
  else if N.even q then q else (q + 1)%N.

(** [float(size)]: the integer rounded to the 53 significant bits of a
    binary64 number, ties to even (the sizes of files are far below the
    range where the conversion overflows) *)
Definition to_binary64 (size : N) : N :=
  let bits := N.size size in
  if (bits <=? 53)%N then size
  else
    let ulp := (2 ^ (bits - 53))%N in
    (round_half_even size ulp * ulp)%N.

(** [f"{size / (1024 * 1024):.2f}"]: the quotient is the nearest binary64
    number, which for a divisor that is a power of two is the size rounded
    to 53 bits over that divisor; the format rounds that number to two
    decimals, ties to even. *)
Definition format_mb (size : N) : string :=
  let h := round_half_even (to_binary64 size * 100) (1024 * 1024) in
  pretty (h `div` 100)%N +:+ "." +:+
  pretty ((h `mod` 100) `div` 10)%N +:+ pretty (h `mod` 10)%N.

(** [l[:stop]] *)
Definition slice_to {A} (l : list A) (stop : Z) : list A :=
  let n := Z.of_nat (length l) in
  let stop' := if (stop <? 0)%Z then Z.max 0 (stop + n) else Z.min stop n in
  take (Z.to_nat stop') l.

(** [enumerate(l, start)] *)
Fixpoint enumerate {A} (start : nat) (l : list A) : list (nat * A) :=
  match l with
  | [] => []
  | x :: rest => (start, x) :: enumerate (S start) rest
  end.

(** ** The world and the monad of effects *)

(** Calls to the environment, logged when they are attempted *)
Inductive call : Type :=
  | CListRepoFiles (repo_id repo_type : string)
  | CHfHubDownload (repo_id filename repo_type : string) (local_dir : path)
  | CRename (src dst : path)
  | CRmdir (p : path)
  | CMkdir (p : path)
  | CWriteText (p : path) (data : string).

Global Instance call_eq_dec : EqDecision call.
Proof. solve_decision. Defined.

Record world : Type := World {
  disk : filesystem;
  stdout : list string;
  calls : list call
}.

(** [sys.exit] raises [SystemExit], which is not derived from [Exception];
    every other exception of the model is. *)
Inductive exn : Type :=
  | Exception (msg : string)
  | SystemExit (code : Z).

Inductive outcome (A : Type) : Type :=
  | Normal (a : A)
  | Raised (e : exn).
Arguments Normal {A} a.
Arguments Raised {A} e.

Global Instance world_eq_dec : EqDecision world.
Proof. solve_decision. Defined.
Global Instance exn_eq_dec : EqDecision exn.
Proof. solve_decision. Defined.
Global Instance outcome_eq_dec `{EqDecision A} : EqDecision (outcome A).
Proof. solve_decision. Defined.

Definition M (A : Type) : Type := world → outcome A * world.

Global Instance M_ret : MRet M := λ A a w, (Normal a, w).
Global Instance M_bind : MBind M := λ A B f m w,
  match m w with
  | (Normal a, w') => f a w'
  | (Raised e, w') => (Raised e, w')
  end.

Definition raise {A} (e : exn) : M A := λ w, (Raised e, w).

(** [sys.exit(code)] *)
Definition sys_exit {A} (code : Z) : M A := raise (SystemExit code).

(** [print(s)] *)
Definition print (s : string) : M unit := λ w,
  (Normal tt, World (disk w) (stdout w ++ [s]) (calls w)).

Definition log (c : call) : M unit := λ w,
  (Normal tt, World (disk w) (stdout w) (calls w ++ [c])).

(** [try: body / except Exception as e: handler(str(e))] *)
Definition try_except_Exception {A} (body : M A) (handler : string → M A)
  : M A := λ w,
  match body w with
  | (Raised (Exception msg), w') => handler msg w'
  | r => r
  end.

(** [try: body / except: handler] *)
Definition try_except {A} (body : M A) (handler : M A) : M A := λ w,
  match body w with
  | (Raised _, w') => handler w'
  | r => r
  end.

(** A read of the filesystem *)
Definition fs_read {A} (op : filesystem → string + A) : M A := λ w,
  match op (disk w) with
  | inl msg => (Raised (Exception msg), w)
  | inr a => (Normal a, w)
  end.

(** A change of the filesystem *)
Definition fs_update (op : filesystem → string + filesystem) : M unit := λ w,
  match op (disk w) with
  | inl msg => (Raised (Exception msg), w)
  | inr fs' => (Normal tt, World fs' (stdout w) (calls w))
  end.

Definition path_exists (p : path) : M bool :=
  fs_read (λ fs, inr (fs_exists fs p)).
Definition path_stat_size (p : path) : M N :=
  fs_read (λ fs, fs_stat_size fs p).
Definition path_rename (src dst : path) : M unit :=
  log (CRename src dst);; fs_update (λ fs, fs_rename fs src dst).
Definition path_rmdir (p : path) : M unit :=
  log (CRmdir p);; fs_update (λ fs, fs_rmdir fs p).
Definition path_mkdir_parents_exist_ok (p : path) : M unit :=
  log (CMkdir p);; fs_update (λ fs, fs_mkdir_parents_exist_ok fs p).
Definition path_write_text (p : path) (data : string) : M unit :=
  log (CWriteText p data);; fs_update (λ fs, fs_write_text fs p data).

(** [for x in l: s = body(x, s)], with [s] the variables the loop updates *)
Fixpoint for_in {A S} (l : list A) (s : S) (body : A → S → M S) : M S :=
  match l with
  | [] => mret s
  | x :: rest => s' ← body x s; for_in rest s' body
  end.

(** ** The environment *)

(** The packages the script imports, and the two remote operations. A
    retrieval sees the calls made so far and the filesystem, and leaves a
    filesystem of its choice together with the local path of the file, or
    the message of its error. *)
Record environment : Type := Environment {
  packages_installed : bool;
  list_repo_files : string → string → string + list string;
  hf_hub_download :
    string → string → string → path → list call → filesystem →
    (string + path) * filesystem
}.

(** The parsed command line *)
Record arguments : Type := Namespace {
  args_count : Z;
  args_output_dir : path;
  args_list : bool
}.


Definition REPO_ID : string := "manycore-research/SpatialLM-Testset".
Definition DEFAULT_COUNT : Z := 5.

(** ** The script *)

Section script.
Variable env : environment.

Definition call_list_repo_files (repo_id repo_type : string)
  : M (list string) :=
  log (CListRepoFiles repo_id repo_type);;
  match list_repo_files env repo_id repo_type with
  | inl msg => raise (Exception msg)
  | inr files => mret files
  end.

Definition call_hf_hub_download (repo_id filename repo_type : string)
    (local_dir : path) : M path := λ w,
  let w1 := World (disk w) (stdout w)
              (calls w ++ [CHfHubDownload repo_id filename repo_type local_dir]) in
  match hf_hub_download env repo_id filename repo_type local_dir
          (calls w) (disk w) with
  | (inl msg, fs') => (Raised (Exception msg), World fs' (stdout w1) (calls w1))
  | (inr p, fs') => (Normal p, World fs' (stdout w1) (calls w1))
  end.

Definition list_available_scenes (repo_id : string) : M (list string) :=
  try_except_Exception
    (all_files ← call_list_repo_files repo_id "dataset";
     let ply_files := filter (λ f, endswith f ".ply") all_files in
     mret (sorted ply_files))
    (λ e,
       print ("ERROR: Failed to list repository files: " +:+ e);;
       mret []).

Definition download_ply_file (repo_id filename : string) (output_dir : path)
  : M bool :=
  try_except_Exception
    (print ("Downloading: " +:+ filename +:+ "...");;
     local_path ← call_hf_hub_download repo_id filename "dataset" output_dir;
     let downloaded_file := local_path in
     let target_file := path_join output_dir (path_name downloaded_file) in
     (if decide (downloaded_file ≠ target_file) then
        path_rename downloaded_file target_file;;
        try_except (path_rmdir (path_parent downloaded_file)) (mret tt)
      else mret tt);;
     size ← path_stat_size target_file;
     print ("  SUCCESS: " +:+ path_name target_file +:+ " ("
              +:+ format_mb size +:+ " MB)");;
     mret true)
    (λ e,
       print ("  ERROR: Failed to download " +:+ filename +:+ ": " +:+ e);;
       mret false).

Definition readme_header (n : nat) : string :=
  unlines [
    "# SpatialLM3D Sample Scenes";
    "";
    "This directory contains " +:+ pretty n +:+
      " sample PLY files from the SpatialLM-Testset dataset.";
    "";
    "## Dataset Source";
    "";
    "- Repository: HuggingFace `manycore-research/SpatialLM-Testset`";
    "- License: CC-BY-NC-4.0 (Non-commercial use, academic/educational projects allowed)";
    "- URL: https://huggingface.co/datasets/manycore-research/SpatialLM-Testset";
    "";
    "## Files";
    ""
  ].

Definition readme_footer : string :=
  unlines [
    "";
    "## Usage";
    "";
    "1. Launch SpatialLM3D Desktop application";
    "2. Click " +:+ dquote +:+ "Select PLY File" +:+ dquote +:+ " button";
    "3. Navigate to this `Samples/` directory";
    "4. Select any `.ply` file to analyze";
    "";
    "## Notes";
    "";
    "- These files are for demonstration and testing purposes";
    "- Ensure you have sufficient memory to load large point clouds";
    "- Processing time varies based on scene complexity"
  ].

(** The line of the summary for the [i]-th file *)
Definition readme_entry (i : nat) (name : string) (size : N) : string :=
  pretty i +:+ ". `" +:+ name +:+ "` (" +:+ format_mb size +:+ " MB)" +:+ nl.

(** The body of the loop of [create_readme] over the numbered files,
    [content] being the text the loop extends *)
Definition add_entry (output_dir : path) (entry : nat * string)
    (content : string) : M string :=
  let '(i, filename) := entry in
  let file_path := path_join output_dir (str_name filename) in
  ex ← path_exists file_path;
  if ex : bool then
    size ← path_stat_size file_path;
    mret (content +:+ readme_entry i (path_name file_path) size)
  else mret content.

Definition create_readme (output_dir : path) (downloaded_files : list string)
  : M unit :=
  let readme_path := path_join output_dir "README.md" in
  let content := readme_header (length downloaded_files) in
  content ← for_in (enumerate 1 downloaded_files) content
    (add_entry output_dir);
  let content := content +:+ readme_footer in
  path_write_text readme_path content;;
  print (nl +:+ "Created: " +:+ str_path readme_path).

(** The body of the loop of [main] over the files to fetch, [downloaded]
    being the list the loop extends *)
Definition fetch_into (output_dir : path) (filename : string)
    (downloaded : list string) : M (list string) :=
  ok ← download_ply_file REPO_ID filename output_dir;
  mret (if ok : bool then downloaded ++ [filename] else downloaded).

(** A line of the numbered catalog that [--list] prints *)
Definition catalog_line (entry : nat * string) : string :=
  let '(i, filename) := entry in
  "  " +:+ pretty i +:+ ". " +:+ filename.

(** [if cond: body] *)
Definition when (cond : bool) (body : M unit) : M unit :=
  if cond then body else mret tt.

(** [main()] from the point where [parser.parse_args()] has returned
    [args] *)
Definition main (args : arguments) : M unit :=
  print (str_mul "=" 70);;
  print "SpatialLM3D Dataset Downloader";;
  print (str_mul "=" 70);;
  print (nl +:+ "Fetching available files from " +:+ REPO_ID +:+ "...");;
  available_files ← list_available_scenes REPO_ID;
  when (bool_decide (available_files = []))
    (print "ERROR: No PLY files found in repository.";;
     sys_exit 1);;
  print ("Found " +:+ pretty (length available_files) +:+
           " PLY files in repository.");;
  when (args_list args)
    (print (nl +:+ "Available PLY files:");;
     for_in (enumerate 1 available_files) tt
       (λ entry _, print (catalog_line entry));;
     sys_exit 0);;
  let output_dir := args_output_dir args in
  path_mkdir_parents_exist_ok output_dir;;
  print (nl +:+ "Output directory: " +:+ str_path output_dir);;
  let count := Z.min (args_count args) (Z.of_nat (length available_files)) in
  print (nl +:+ "Downloading " +:+ pretty count +:+ " sample files...");;
  print (str_mul "-" 70);;
  downloaded ← for_in (slice_to available_files count) []
    (fetch_into output_dir);
  print (str_mul "-" 70);;
  print (nl +:+ "Download complete: " +:+ pretty (length downloaded) +:+ "/"
           +:+ pretty count +:+ " files successful");;
  if bool_decide (downloaded ≠ []) then
    create_readme output_dir downloaded;;
    print (nl +:+ "Sample files ready for use in SpatialLM3D application!")
  else
    print (nl +:+ "WARNING: No files were downloaded successfully.");;
    sys_exit 1.

(** The module as a script, for a command line that parses to [args]: the
    import guard, then [main()] *)
Definition script (args : arguments) : M unit :=
  if packages_installed env then main args
  else
    print "ERROR: Required packages not installed.";;
    print "Please run: pip install huggingface-hub requests";;
    sys_exit 1.




End script.

(** The exit status of the interpreter: an uncaught exception other than
    [SystemExit] prints a traceback and exits with status 1. *)
Definition exit_status {A} (o : outcome A) : Z :=
  match o with
  | Normal _ => 0
  | Raised (SystemExit code) => code
  | Raised (Exception _) => 1
  end.

Definition empty_world : world := World ∅ [] [].

(** ** Vocabulary of the statements *)

(** The world with more lines printed *)
Definition printed (w : world) (lines : list string) : world :=
  World (disk w) (stdout w ++ lines) (calls w).

(** The catalog the lister computes from the answer of the remote listing *)
Definition catalog_of (answer : string + list string) : list string :=
  match answer with
  | inr all_files => sorted (filter (λ f, endswith f ".ply") all_files)
  | inl _ => []
  end.

(** The catalog of a run *)
Definition catalog (env : environment) : list string :=
  catalog_of (list_repo_files env REPO_ID "dataset").

(** The filenames of the retrievals in a log of calls, in order *)
Definition fetch_attempts (cs : list call) : list string :=
  omap (λ c, match c with
             | CHfHubDownload _ filename _ _ => Some filename
             | _ => None
             end) cs.

(** The calls made between two worlds of a run *)
Definition calls_since (w w' : world) : list call :=
  drop (length (calls w)) (calls w').

(** The retrievals a run of [main] attempts, in order *)
Definition attempted (env : environment) (args : arguments) (w : world)
  : list string :=
  fetch_attempts (calls_since w (main env args w).2).

(** The files of the batch *)
Definition batch (env : environment) (args : arguments) : list string :=
  slice_to (catalog env)
    (Z.min (args_count args) (Z.of_nat (length (catalog env)))).

Definition banner : list string :=
  [str_mul "=" 70; "SpatialLM3D Dataset Downloader"; str_mul "=" 70;
   nl +:+ "Fetching available files from " +:+ REPO_ID +:+ "..."].

(** The line the lister prints when the remote listing fails *)
Definition listing_error (answer : string + list string) : list string :=
  match answer with
  | inl msg => ["ERROR: Failed to list repository files: " +:+ msg]
  | inr _ => []
  end.

Definition found_line (env : environment) : string :=
  "Found " +:+ pretty (length (catalog env)) +:+ " PLY files in repository.".

(** The lines printed before the first fetch *)
Definition download_intro (env : environment) (args : arguments)
  : list string :=
  [nl +:+ "Output directory: " +:+ str_path (args_output_dir args);
   nl +:+ "Downloading " +:+
     pretty (Z.min (args_count args) (Z.of_nat (length (catalog env)))) +:+
     " sample files...";
   str_mul "-" 70].

(** The world in which the first fetch starts, [fs1] being the filesystem
    once the output directory is there *)
Definition fetch_start (env : environment) (args : arguments) (w : world)
    (fs1 : filesystem) : world :=
  World fs1
    (stdout w ++ banner ++ [found_line env] ++ download_intro env args)
    (calls w ++ [CListRepoFiles REPO_ID "dataset";
                 CMkdir (args_output_dir args)]).

(** The line that reports the batch *)
Definition complete_line (env : environment) (args : arguments)
    (downloaded : list string) : string :=
  nl +:+ "Download complete: " +:+ pretty (length downloaded) +:+ "/" +:+
    pretty (Z.min (args_count args) (Z.of_nat (length (catalog env)))) +:+
    " files successful".

(** The filesystem after a removal that may fail *)
Definition after_rmdir (fs : filesystem) (p : path) : filesystem :=
  match fs_rmdir fs p with
  | inr fs' => fs'
  | inl _ => fs
  end.

Definition readme_path (output_dir : path) : path :=
  path_join output_dir "README.md".

(** The local file the summary looks at for a downloaded filename *)
Definition local_file (output_dir : path) (filename : string) : path :=
  path_join output_dir (str_name filename).

(** A name without a separator *)
Fixpoint slash_free (s : string) : bool :=
  match s with
  | EmptyString => true
  | String c s' => negb (Ascii.eqb c "/"%char) && slash_free s'
  end.

(** The enumerated lines of the summary over a filesystem: a numbered file
    has a line when its local file is there. *)
Definition summary_line (output_dir : path) (fs : filesystem)
    (entry : nat * string) : option string :=
  n ← fs_lookup fs (local_file output_dir entry.2);
  Some (readme_entry entry.1 (path_name (local_file output_dir entry.2))
          (st_size n)).

Definition summary_lines (output_dir : path) (fs : filesystem)
    (start : nat) (downloaded_files : list string) : list string :=
  omap (summary_line output_dir fs) (enumerate start downloaded_files).

Definition str_concat (ls : list string) : string := foldr String.append "" ls.

(** The text of the summary document over a filesystem *)
Definition readme_content (output_dir : path) (downloaded_files : list string)
    (fs : filesystem) : string :=
  readme_header (length downloaded_files) +:+
  str_concat (summary_lines output_dir fs 1 downloaded_files) +:+
  readme_footer.

(** The numbered files whose local file is there *)
Definition present (output_dir : path) (fs : filesystem)
    (entries : list (nat * string)) : list (nat * string) :=
  filter (λ e, fs_exists fs (local_file output_dir e.2)) entries.

(** The size [stat] reports for a path that is there *)
Definition size_at (fs : filesystem) (p : path) : N :=
  default 0%N (st_size <$> fs_lookup fs p).

(** The line of the summary for a numbered file that is there *)
Definition entry_line (output_dir : path) (fs : filesystem)
    (e : nat * string) : string :=
  readme_entry e.1 (path_name (local_file output_dir e.2))
    (size_at fs (local_file output_dir e.2)).

(** What the summary reads of a filesystem: for each downloaded filename,
    whether its local file is there and with which size *)
Definition same_sizes (output_dir : path) (downloaded_files : list string)
    (fsa fsb : filesystem) : Prop :=
  Forall (λ f, st_size <$> fs_lookup fsa (local_file output_dir f) =
               st_size <$> fs_lookup fsb (local_file output_dir f))
         downloaded_files.




(** ** Scenarios *)

(** A retrieval as the library performs it: the file lands under the local
    directory at the path it has in the repository, the directories on the
    way being created; a name the repository lacks is an error. *)
Definition hub_download (remote : gmap string N)
  : string → string → string → path → list call → filesystem →
    (string + path) * filesystem :=
  λ _ filename _ local_dir _ fs,
    match remote !! filename with
    | None => (inl ("404 Client Error: Entry Not Found for " +:+ filename), fs)
    | Some size =>
        let p := local_dir ++ path_parts filename in
        match fs_mkdirs fs [] (path_parent p) with
        | inr fs' => (inr p, <[p := File (Opaque size)]> fs')
        | inl msg => (inl msg, fs)
        end
    end.

(** A repository that lists [listed] and serves the files of [remote] *)
Definition hub (listed : list string) (remote : gmap string N) : environment :=
  Environment true (λ _ _, inr listed) (hub_download remote).

(** The repository of the scenario of the specification, listed out of
    order and with a file that is not a point cloud *)
Definition abc_hub : environment :=
  hub ["c.ply"; "a.ply"; "notes.txt"; "b.ply"]
      {[ "a.ply" := 1572864%N; "b.ply" := 131072%N; "c.ply" := 393216%N ]}.

(** The same listing, with [b.ply] missing from the store *)
Definition flaky_hub : environment :=
  hub ["c.ply"; "a.ply"; "notes.txt"; "b.ply"]
      {[ "a.ply" := 1572864%N; "c.ply" := 393216%N ]}.

(** A repository that keeps its point clouds in a directory, as the real
    one does *)
Definition pcd_hub : environment :=
  hub ["pcd/scene0000_00.ply"; "README.md"]
      {[ "pcd/scene0000_00.ply" := 1572864%N ]}.

Definition out : path := ["home"; "user"; "Samples"].

(** The filesystem that holds the output directory and nothing else *)
Definition out_fs : filesystem :=
  {[ ["home"] := Dir; ["home"; "user"] := Dir; out := Dir ]}.

(** A world in which the directory of the point clouds already holds a
    file of the user *)
Definition kept_world : world :=
  World {[ ["home"] := Dir; ["home"; "user"] := Dir; out := Dir;
           out ++ ["pcd"] := Dir;
           out ++ ["pcd"; "notes.txt"] := File (Text "mine") ]} [] [].

(** A world in which the name of the summary document is taken by a
    directory *)
Definition blocked_world : world :=
  World {[ ["home"] := Dir; ["home"; "user"] := Dir; out := Dir;
           out ++ ["README.md"] := Dir ]} [] [].

(** A world in which the second of two downloaded files has been deleted *)
Definition pruned_world : world :=
  World {[ ["home"] := Dir; ["home"; "user"] := Dir; out := Dir;
           out ++ ["a.ply"] := File (Opaque 1572864) ]} [] [].

(** ** Three claims as the specification states them *)

(** The run attempts the first [min(count, N)] entries of the catalog. *)
Definition fetches_first_min (env : environment) (args : arguments)
    (w : world) : Prop :=
  attempted env args w =
  take (Z.to_nat (Z.min (args_count args) (Z.of_nat (length (catalog env)))))
       (catalog env).

(** A negative count attempts [max(0, N + count)] files, and only the
    count 0 attempts nothing. *)
Definition negative_count_claim (env : environment) (args : arguments)
    (w : world) : Prop :=
  ((args_count args < 0)%Z →
   attempted env args w =
   take (Z.to_nat (Z.max 0 (Z.of_nat (length (catalog env)) + args_count args)))
        (catalog env)) ∧
  (attempted env args w = [] → args_count args = 0%Z).


(** ** Vocabulary of the further properties *)



(** A repository that keeps a point cloud two directories deep *)
Definition nested_hub : environment :=
  hub ["scans/room1/a.ply"] {[ "scans/room1/a.ply" := 393216%N ]}.



(** A world in which the path of the output directory is a regular file *)
Definition file_world : world :=
  World {[ ["home"] := Dir; ["home"; "user"] := Dir;
           out := File (Text "not a directory") ]} [] [].

(** * Properties *)

(** ** Running the monad *)

Lemma run_bind {A B} (m : M A) (f : A → M B) w :
  (m ≫= f) w =
  match m w with
  | (Normal a, w') => f a w'
  | (Raised e, w') => (Raised e, w')
  end.
Proof. reflexivity. Qed.

Lemma run_ret {A} (a : A) w : (mret a : M A) w = (Normal a, w).
Proof. reflexivity. Qed.

Lemma run_print_bind {B} s (f : unit → M B) w :
  (print s ≫= f) w = f tt (World (disk w) (stdout w ++ [s]) (calls w)).
Proof. reflexivity. Qed.

Lemma run_log_bind {B} c (f : unit → M B) w :
  (log c ≫= f) w = f tt (World (disk w) (stdout w) (calls w ++ [c])).
Proof. reflexivity. Qed.

(** Unfolds the operations of the monad in the goal. *)
Ltac run_M :=
  unfold try_except_Exception, try_except, fs_read, fs_update, sys_exit,
    raise, print, log; unfold mbind, M_bind, mret, M_ret; simpl.

Lemma world_eta w : World (disk w) (stdout w) (calls w) = w.
Proof. by destruct w. Qed.

(** ** Strings and sorting *)

Lemma string_app_cons c s1 s2 : String c s1 +:+ s2 = String c (s1 +:+ s2).
Proof. reflexivity. Qed.

Lemma substring_all s : String.substring 0 (String.length s) s = s.
Proof. induction s as [|c s IH]; simpl; [done | by rewrite IH]. Qed.

Lemma substring_skip pre s :
  String.substring (String.length pre) (String.length s) (pre +:+ s) = s.
Proof.
  induction pre as [|c pre IH]; [apply substring_all|].
  rewrite string_app_cons. simpl. done.
Qed.

Lemma substring_split s k :
  (k ≤ String.length s)%nat →
  s = String.substring 0 k s +:+ String.substring k (String.length s - k) s.
Proof.
  revert k. induction s as [|c s IH]; intros [|k] Hk; simpl in *; try lia.
  - done.
  - by rewrite substring_all.
  - rewrite string_app_cons. f_equal. apply IH. lia.
Qed.

Lemma string_length_app s1 s2 :
  String.length (s1 +:+ s2) = String.length s1 + String.length s2.
Proof.
  induction s1 as [|c s1 IH]; [done|].
  rewrite string_app_cons. simpl. by rewrite IH.
Qed.

(** [endswith] decides that the string is some stem followed by the suffix. *)
Lemma endswith_spec s suffix :
  endswith s suffix = true ↔ ∃ stem, s = stem +:+ suffix.
Proof.
  unfold endswith. split.
  - destruct (Nat.leb_spec (String.length suffix) (String.length s)) as [Hle|];
      [|done].
    intros Heq%String.eqb_eq.
    exists (String.substring 0 (String.length s - String.length suffix) s).
    pose proof (substring_split s (String.length s - String.length suffix))
      as Hs.
    replace (String.length s - (String.length s - String.length suffix))
      with (String.length suffix) in Hs by lia.
    rewrite Heq in Hs. apply Hs. lia.
  - intros [stem ->]. rewrite string_length_app.
    destruct (Nat.leb_spec (String.length suffix)
                (String.length stem + String.length suffix)); [|lia].
    apply String.eqb_eq.
    replace (String.length stem + String.length suffix - String.length suffix)
      with (String.length stem) by lia.
    apply substring_skip.
Qed.

Lemma sorted_Permutation l : sorted l ≡ₚ l.
Proof. apply merge_sort_Permutation. Qed.

Lemma sorted_StronglySorted l : StronglySorted String.le (sorted l).
Proof. apply StronglySorted_merge_sort; apply _. Qed.

(** There is one sorted arrangement of a list of strings: whatever the
    sorting algorithm, it returns [sorted l]. *)
Lemma sorted_unique l l' :
  l' ≡ₚ l → Sorted String.le l' → l' = sorted l.
Proof.
  intros Hp Hs. apply (Sorted_unique String.le); [done | | ].
  - apply Sorted_merge_sort. apply _.
  - by rewrite Hp, sorted_Permutation.
Qed.

(** ** The remote catalog lister *)

Lemma list_available_scenes_run env repo_id w :
  list_available_scenes env repo_id w =
  (Normal (catalog_of (list_repo_files env repo_id "dataset")),
   World (disk w)
     (stdout w ++
        match list_repo_files env repo_id "dataset" with
        | inl msg => ["ERROR: Failed to list repository files: " +:+ msg]
        | inr _ => []
        end)
     (calls w ++ [CListRepoFiles repo_id "dataset"])).
Proof.
  unfold list_available_scenes, call_list_repo_files. run_M.
  destruct (list_repo_files env repo_id "dataset") as [msg|all_files]; simpl.
  - reflexivity.
  - by rewrite app_nil_r.
Qed.

(** C1. Whatever the remote listing answers, [list_available_scenes]
    returns normally. When the listing answers with files, the result is
    sorted lexicographically and holds exactly the entries that end in
    [.ply] (with their multiplicities), and nothing is printed. When the
    listing fails, the result is the empty list, and the one line printed
    reports the error. *)
Theorem list_available_scenes_spec env repo_id w :
  match list_repo_files env repo_id "dataset" with
  | inr all_files =>
      ∃ ply_files,
        list_available_scenes env repo_id w =
          (Normal ply_files,
           World (disk w) (stdout w)
             (calls w ++ [CListRepoFiles repo_id "dataset"])) ∧
        StronglySorted String.le ply_files ∧
        ply_files ≡ₚ filter (λ f, endswith f ".ply") all_files ∧
        (∀ f, f ∈ ply_files ↔ f ∈ all_files ∧ ∃ stem, f = stem +:+ ".ply")
  | inl msg =>
      list_available_scenes env repo_id w =
        (Normal [],
         World (disk w)
           (stdout w ++ ["ERROR: Failed to list repository files: " +:+ msg])
           (calls w ++ [CListRepoFiles repo_id "dataset"]))
  end.
Proof.
  rewrite list_available_scenes_run.
  destruct (list_repo_files env repo_id "dataset") as [msg|all_files]; simpl.
  - reflexivity.
  - eexists. split; [by rewrite app_nil_r|].
    split; [apply sorted_StronglySorted|].
    split; [apply sorted_Permutation|].
    intros f. rewrite sorted_Permutation, list_elem_of_filter.
    rewrite <- endswith_spec, Is_true_true. tauto.
Qed.

Ltac close_fetch b :=
  eexists b, _, _, _; split; [reflexivity|]; simpl;
  rewrite <- ?app_assoc; simpl;
  split; [reflexivity|]; split; [reflexivity|]; split; [reflexivity|]; eauto.

(** A fetch returns normally whatever happens: it makes one retrieval,
    then calls that only move or remove local entries, and prints the
    announcement and one line of outcome. *)
Lemma download_ply_file_run env repo_id filename output_dir w :
  ∃ ok w' cs line,
    download_ply_file env repo_id filename output_dir w = (Normal ok, w') ∧
    calls w' =
      calls w ++ CHfHubDownload repo_id filename "dataset" output_dir :: cs ∧
    fetch_attempts cs = [] ∧
    stdout w' = stdout w ++ ["Downloading: " +:+ filename +:+ "..."; line] ∧
    if ok then
      ∃ name size,
        line = "  SUCCESS: " +:+ name +:+ " (" +:+ format_mb size +:+ " MB)"
    else
      ∃ msg,
        line = "  ERROR: Failed to download " +:+ filename +:+ ": " +:+ msg.
Proof.
  unfold download_ply_file, call_hf_hub_download, path_rename, path_rmdir,
    path_stat_size. run_M.
  destruct (hf_hub_download env repo_id filename "dataset" output_dir
              (calls w) (disk w)) as [[msg|p] fs1]; simpl;
    [close_fetch false|].
  destruct (decide (p ≠ path_join output_dir (path_name p))); simpl.
  - destruct (fs_rename fs1 p _) as [msg|fs2]; simpl; [close_fetch false|].
    destruct (fs_rmdir fs2 _) as [msg|fs3]; simpl;
      (destruct (fs_stat_size _ _) as [msg'|size]; simpl;
       [close_fetch false|close_fetch true]).
  - destruct (fs_stat_size _ _) as [msg'|size]; simpl;
      [close_fetch false|close_fetch true].
Qed.

Lemma fetch_attempts_app cs1 cs2 :
  fetch_attempts (cs1 ++ cs2) = fetch_attempts cs1 ++ fetch_attempts cs2.
Proof. apply omap_app. Qed.

Lemma for_in_cons {A S} (x : A) l (s : S) body w :
  for_in (x :: l) s body w =
  match body x s w with
  | (Normal s', w') => for_in l s' body w'
  | (Raised e, w') => (Raised e, w')
  end.
Proof. reflexivity. Qed.

Lemma fetch_into_run env output_dir filename downloaded w :
  fetch_into env output_dir filename downloaded w =
  match download_ply_file env REPO_ID filename output_dir w with
  | (Normal ok, w') =>
      (Normal (if ok then downloaded ++ [filename] else downloaded), w')
  | (Raised e, w') => (Raised e, w')
  end.
Proof. reflexivity. Qed.

(** The loop over the batch runs to its end: every file is tried, in order,
    and the files collected are those whose fetch returned [True]. *)
Lemma fetch_loop_run env output_dir files :
  ∀ downloaded w,
    ∃ got w' cs,
      for_in files downloaded (fetch_into env output_dir) w =
        (Normal (downloaded ++ got), w') ∧
      calls w' = calls w ++ cs ∧
      fetch_attempts cs = files ∧
      got `sublist_of` files.
Proof.
  induction files as [|f files IH]; intros downloaded w.
  - exists [], w, []. rewrite !app_nil_r. by repeat split.
  - destruct (download_ply_file_run env REPO_ID f output_dir w)
      as (ok & w1 & cs1 & line & Hrun & Hcalls & Hnone & _ & _).
    destruct (IH (if ok then downloaded ++ [f] else downloaded) w1)
      as (got & w' & cs & Hloop & Hcalls' & Hatt & Hsub).
    exists (if ok then f :: got else got), w',
      (CHfHubDownload REPO_ID f "dataset" output_dir :: cs1 ++ cs).
    split; [|split; [|split]].
    + rewrite for_in_cons, fetch_into_run, Hrun, Hloop.
      destruct ok; [by rewrite <- app_assoc|done].
    + rewrite Hcalls', Hcalls. by rewrite <- app_assoc.
    + simpl. by rewrite fetch_attempts_app, Hnone, Hatt.
    + destruct ok; by constructor.
Qed.

Lemma string_app_assoc s1 s2 s3 : (s1 +:+ s2) +:+ s3 = s1 +:+ s2 +:+ s3.
Proof.
  induction s1 as [|c s1 IH]; [done|].
  rewrite !string_app_cons. by rewrite IH.
Qed.

Lemma string_app_nil_r s : s +:+ "" = s.
Proof.
  induction s as [|c s IH]; [done|]. rewrite string_app_cons. by rewrite IH.
Qed.

Lemma fs_exists_lookup fs p : fs_exists fs p = true ↔ is_Some (fs_lookup fs p).
Proof. unfold fs_exists. apply bool_decide_eq_true. Qed.

Lemma add_entry_run output_dir entry content w :
  add_entry output_dir entry content w =
  (Normal (content +:+
             default "" (summary_line output_dir (disk w) entry)), w).
Proof.
  destruct entry as [i filename].
  unfold add_entry, summary_line, path_exists, path_stat_size, fs_stat_size,
    local_file. run_M.
  destruct (fs_exists (disk w) _) eqn:Hex.
  - apply fs_exists_lookup in Hex as [n Hn]. by rewrite Hn.
  - apply not_true_iff_false in Hex. rewrite fs_exists_lookup in Hex.
    destruct (fs_lookup (disk w) _) as [n|] eqn:Hn; [by destruct Hex|].
    simpl. by rewrite string_app_nil_r.
Qed.

(** The loop of the summary never fails and leaves the world as it was. *)
Lemma add_entries_run output_dir files :
  ∀ start content w,
    for_in (enumerate start files) content (add_entry output_dir) w =
    (Normal (content +:+
               str_concat (summary_lines output_dir (disk w) start files)), w).
Proof.
  induction files as [|f files IH]; intros start content w.
  - simpl. by rewrite run_ret, string_app_nil_r.
  - change (enumerate start (f :: files))
      with ((start, f) :: enumerate (S start) files).
    rewrite for_in_cons, add_entry_run, IH. unfold summary_lines. simpl.
    destruct (summary_line output_dir (disk w) (start, f)) as [line|]; simpl.
    + by rewrite string_app_assoc.
    + by rewrite string_app_nil_r.
Qed.

Lemma create_readme_run output_dir downloaded_files w :
  create_readme output_dir downloaded_files w =
  let content := readme_content output_dir downloaded_files (disk w) in
  let cs := calls w ++ [CWriteText (readme_path output_dir) content] in
  match fs_write_text (disk w) (readme_path output_dir) content with
  | inl msg => (Raised (Exception msg), World (disk w) (stdout w) cs)
  | inr fs' =>
      (Normal tt,
       World fs'
         (stdout w ++ [nl +:+ "Created: " +:+ str_path (readme_path output_dir)])
         cs)
  end.
Proof.
  unfold create_readme, readme_content. rewrite run_bind, add_entries_run.
  unfold path_write_text. run_M. rewrite string_app_assoc.
  by destruct (fs_write_text _ _ _).
Qed.

(** Runs the prints at the head of the goal. *)
Ltac run_prints := rewrite ?run_print_bind; cbn [disk stdout calls].

Lemma main_empty_catalog env args w :
  catalog env = [] →
  main env args w =
  (Raised (SystemExit 1),
   World (disk w)
     (stdout w ++ banner ++
        listing_error (list_repo_files env REPO_ID "dataset") ++
        ["ERROR: No PLY files found in repository."])
     (calls w ++ [CListRepoFiles REPO_ID "dataset"])).
Proof.
  unfold catalog. intros Hcat. unfold main. run_prints.
  rewrite run_bind, list_available_scenes_run, Hcat. rewrite run_bind.
  unfold when. rewrite bool_decide_eq_true_2 by done.
  run_prints. unfold sys_exit, raise, banner, listing_error.
  cbn [disk stdout calls]. by rewrite <- !app_assoc.
Qed.

Lemma print_catalog_run files :
  ∀ start w,
    for_in (enumerate start files) tt (λ entry _, print (catalog_line entry)) w =
    (Normal tt, printed w (catalog_line <$> enumerate start files)).
Proof.
  unfold printed.
  induction files as [|f files IH]; intros start w.
  - simpl. by rewrite run_ret, app_nil_r, world_eta.
  - change (enumerate start (f :: files))
      with ((start, f) :: enumerate (S start) files).
    rewrite for_in_cons. unfold print at 1. rewrite IH.
    cbn [disk stdout calls fmap list_fmap]. by rewrite <- app_assoc.
Qed.

Lemma catalog_nonempty_answer env :
  catalog env ≠ [] → listing_error (list_repo_files env REPO_ID "dataset") = [].
Proof.
  unfold catalog. by destruct (list_repo_files env REPO_ID "dataset").
Qed.

Lemma main_list_only env args w :
  catalog env ≠ [] →
  args_list args = true →
  main env args w =
  (Raised (SystemExit 0),
   World (disk w)
     (stdout w ++ banner ++
        [found_line env; nl +:+ "Available PLY files:"] ++
        (catalog_line <$> enumerate 1 (catalog env)))
     (calls w ++ [CListRepoFiles REPO_ID "dataset"])).
Proof.
  intros Hcat Hlist. pose proof (catalog_nonempty_answer env Hcat) as Herr.
  unfold catalog, listing_error in *. unfold main. run_prints.
  rewrite run_bind, list_available_scenes_run, Herr. rewrite run_bind.
  unfold when at 1. rewrite bool_decide_eq_false_2 by done.
  rewrite run_ret. run_prints. rewrite Hlist, run_bind. unfold when.
  run_prints. rewrite run_bind, print_catalog_run.
  unfold sys_exit, raise, banner, printed, found_line, catalog.
  cbn [disk stdout calls]. by rewrite <- !app_assoc.
Qed.

Lemma main_mkdir_fails env args w msg :
  catalog env ≠ [] →
  args_list args = false →
  fs_mkdir_parents_exist_ok (disk w) (args_output_dir args) = inl msg →
  main env args w =
  (Raised (Exception msg),
   World (disk w) (stdout w ++ banner ++ [found_line env])
     (calls w ++ [CListRepoFiles REPO_ID "dataset";
                  CMkdir (args_output_dir args)])).
Proof.
  intros Hcat Hlist Hmk. pose proof (catalog_nonempty_answer env Hcat) as Herr.
  unfold catalog, listing_error in *. unfold main. run_prints.
  rewrite run_bind, list_available_scenes_run, Herr. rewrite run_bind.
  unfold when at 1. rewrite bool_decide_eq_false_2 by done.
  rewrite run_ret. run_prints. rewrite Hlist, run_bind. unfold when.
  rewrite run_ret, run_bind. unfold path_mkdir_parents_exist_ok.
  rewrite run_log_bind. unfold fs_update. cbn [disk stdout calls].
  rewrite Hmk. unfold banner, found_line, catalog.
  by rewrite <- !app_assoc.
Qed.

Lemma main_download env args w fs1 :
  catalog env ≠ [] →
  args_list args = false →
  fs_mkdir_parents_exist_ok (disk w) (args_output_dir args) = inr fs1 →
  main env args w =
  match for_in (batch env args) [] (fetch_into env (args_output_dir args))
          (fetch_start env args w fs1) with
  | (Raised e, w2) => (Raised e, w2)
  | (Normal downloaded, w2) =>
      let w3 := printed w2 [str_mul "-" 70; complete_line env args downloaded] in
      if bool_decide (downloaded ≠ []) then
        match create_readme (args_output_dir args) downloaded w3 with
        | (Normal _, w4) =>
            (Normal tt,
             printed w4
               [nl +:+ "Sample files ready for use in SpatialLM3D application!"])
        | (Raised e, w4) => (Raised e, w4)
        end
      else
        (Raised (SystemExit 1),
         printed w3 [nl +:+ "WARNING: No files were downloaded successfully."])
  end.
Proof.
  intros Hcat Hlist Hmk. pose proof (catalog_nonempty_answer env Hcat) as Herr.
  unfold catalog, listing_error in *. unfold main. run_prints.
  rewrite run_bind, list_available_scenes_run, Herr. rewrite run_bind.
  unfold when at 1. rewrite bool_decide_eq_false_2 by done.
  rewrite run_ret. run_prints. rewrite Hlist, run_bind. unfold when.
  rewrite run_ret, run_bind. unfold path_mkdir_parents_exist_ok.
  rewrite run_log_bind. unfold fs_update at 1. cbn [disk stdout calls].
  rewrite Hmk. run_prints. rewrite run_bind.
  unfold batch, fetch_start, banner, found_line, download_intro, catalog.
  rewrite <- !app_assoc. cbn [app].
  destruct (for_in _ _ _ _) as [[downloaded|e] w2]; [|done].
  run_prints. unfold complete_line, printed, catalog.
  rewrite <- !app_assoc. cbn [app].
  destruct (bool_decide (downloaded ≠ [])).
  - rewrite run_bind. destruct (create_readme _ _ _) as [[[]|e] w4]; [|done].
    unfold print. done.
  - run_prints. unfold sys_exit, raise. by rewrite <- !app_assoc.
Qed.

Lemma calls_since_app w w' cs : calls w' = calls w ++ cs → calls_since w w' = cs.
Proof. unfold calls_since. intros ->. by rewrite drop_app_length. Qed.

(** In a run that reaches the loop, the retrievals attempted are the files
    of the batch, each once and in order, whatever their outcomes. *)
Lemma main_attempts_batch env args w fs1 :
  catalog env ≠ [] →
  args_list args = false →
  fs_mkdir_parents_exist_ok (disk w) (args_output_dir args) = inr fs1 →
  attempted env args w = batch env args.
Proof.
  intros Hcat Hlist Hmk. unfold attempted.
  rewrite (main_download env args w fs1 Hcat Hlist Hmk).
  destruct (fetch_loop_run env (args_output_dir args) (batch env args) []
              (fetch_start env args w fs1))
    as (got & w2 & cs & Hloop & Hcalls & Hatt & _).
  rewrite app_nil_l in Hloop. rewrite Hloop.
  cbn [app fetch_start calls] in Hcalls. cbv zeta. unfold calls_since.
  destruct (bool_decide (got ≠ [])).
  - rewrite create_readme_run. cbv zeta.
    destruct (fs_write_text _ _ _); cbn [snd printed calls];
      rewrite Hcalls, <- !app_assoc, drop_app_length, !fetch_attempts_app, Hatt;
      apply app_nil_r.
  - cbn [snd printed calls].
    rewrite Hcalls, <- !app_assoc, drop_app_length, !fetch_attempts_app, Hatt.
    reflexivity.
Qed.

Lemma slice_to_nonneg {A} (l : list A) stop :
  (0 ≤ stop)%Z → slice_to l stop = take (Z.to_nat stop) l.
Proof.
  intros Hs. unfold slice_to.
  destruct (Z.ltb_spec stop 0); [lia|].
  destruct (Z.min_spec stop (Z.of_nat (length l))) as [[? ->]|[? ->]]; [done|].
  rewrite Nat2Z.id, !take_ge; [done | lia | lia].
Qed.

Lemma slice_to_neg {A} (l : list A) stop :
  (stop < 0)%Z →
  slice_to l stop = take (length l - Z.to_nat (- stop)) l.
Proof.
  intros Hs. unfold slice_to.
  destruct (Z.ltb_spec stop 0); [|lia]. f_equal. lia.
Qed.

(** Decides a closed equation by evaluation. *)
Ltac by_evaluation := apply (bool_decide_unpack _); vm_compute; exact I.

(** ** The batch *)

Lemma catalog_abc : catalog abc_hub = ["a.ply"; "b.ply"; "c.ply"].
Proof. by_evaluation. Qed.

(** C2, as stated, fails for a negative count: with the catalog a, b, c and
    the count -1 the run attempts a and b, not the first min(-1, 3)
    entries. *)
Lemma fetches_first_min_negative_count :
  ¬ fetches_first_min abc_hub (Namespace (-1) out false) empty_world.
Proof. unfold fetches_first_min. vm_compute. discriminate. Qed.

(** C2, amended. In a run that is not list-only, over a catalog of N >= 1
    entries and an output directory that can be created, a count that is
    not negative makes [main] attempt exactly the first min(count, N)
    entries of the catalog, in catalog order; a count of N or more attempts
    exactly the catalog. *)
Theorem main_fetches_first_min env args w fs1 :
  catalog env ≠ [] →
  args_list args = false →
  fs_mkdir_parents_exist_ok (disk w) (args_output_dir args) = inr fs1 →
  (0 ≤ args_count args)%Z →
  fetches_first_min env args w ∧
  ((Z.of_nat (length (catalog env)) ≤ args_count args)%Z →
   attempted env args w = catalog env).
Proof.
  intros Hcat Hlist Hmk Hcount. unfold fetches_first_min.
  rewrite (main_attempts_batch env args w fs1 Hcat Hlist Hmk).
  unfold batch. rewrite slice_to_nonneg by lia. split; [reflexivity|].
  intros Hge. apply take_ge. lia.
Qed.

Lemma main_fetches_first_min_witness :
  attempted abc_hub (Namespace 2 out false) empty_world = ["a.ply"; "b.ply"] ∧
  fetches_first_min abc_hub (Namespace 2 out false) empty_world.
Proof.
  split; [by_evaluation|].
  apply (main_fetches_first_min abc_hub (Namespace 2 out false) empty_world
           out_fs).
  - rewrite catalog_abc. discriminate.
  - reflexivity.
  - by_evaluation.
  - simpl. lia.
Defined.

(** C9, as stated, fails in its last clause: with the catalog a, b, c the
    count -3 attempts nothing, and -3 is not 0. *)
Lemma negative_count_claim_minus_three :
  ¬ negative_count_claim abc_hub (Namespace (-3) out false) empty_world.
Proof.
  unfold negative_count_claim. intros [_ Hzero].
  assert (attempted abc_hub (Namespace (-3) out false) empty_world = [])
    as Hnone by by_evaluation.
  apply Hzero in Hnone. discriminate Hnone.
Qed.

(** C9, amended. In a run that is not list-only, over a catalog of N >= 1
    entries and an output directory that can be created, a negative count c
    makes [main] attempt max(0, N + c) files, the catalog but for its last
    |c| entries; and a count attempts nothing exactly when it is 0 or at
    most -N. *)
Theorem main_negative_count env args w fs1 :
  catalog env ≠ [] →
  args_list args = false →
  fs_mkdir_parents_exist_ok (disk w) (args_output_dir args) = inr fs1 →
  let c := args_count args in
  let n := Z.of_nat (length (catalog env)) in
  ((c < 0)%Z →
   attempted env args w = take (Z.to_nat (Z.max 0 (n + c))) (catalog env) ∧
   Z.of_nat (length (attempted env args w)) = Z.max 0 (n + c) ∧
   ∃ rest, catalog env = attempted env args w ++ rest ∧
           Z.of_nat (length rest) = Z.min (- c) n) ∧
  (attempted env args w = [] ↔ c = 0%Z ∨ (c ≤ - n)%Z).
Proof.
  intros Hcat Hlist Hmk c n.
  rewrite (main_attempts_batch env args w fs1 Hcat Hlist Hmk).
  assert (0 < n)%Z as Hn.
  { subst n. destruct (catalog env); [done | simpl; lia]. }
  unfold batch. fold c n. split.
  - intros Hneg. rewrite Z.min_l by lia. rewrite slice_to_neg by lia.
    replace (length (catalog env) - Z.to_nat (- c))
      with (Z.to_nat (Z.max 0 (n + c))) by lia.
    split; [reflexivity|]. split.
    + rewrite length_take. lia.
    + exists (drop (Z.to_nat (Z.max 0 (n + c))) (catalog env)).
      split; [by rewrite take_drop|]. rewrite length_drop. lia.
  - destruct (Z.ltb_spec c 0) as [Hneg|Hpos].
    + rewrite Z.min_l by lia. rewrite slice_to_neg by lia. split.
      * intros Hnil. right. apply (f_equal length) in Hnil.
        rewrite length_take in Hnil. simpl in Hnil. lia.
      * intros [?|Hle]; [lia|].
        replace (length (catalog env) - Z.to_nat (- c)) with 0 by lia.
        reflexivity.
    + rewrite slice_to_nonneg by lia. split.
      * intros Hnil. left. apply (f_equal length) in Hnil.
        rewrite length_take in Hnil. simpl in Hnil. lia.
      * intros [->|Hle]; [|lia]. rewrite Z.min_l by lia. reflexivity.
Qed.

Lemma main_negative_count_witness :
  attempted abc_hub (Namespace (-1) out false) empty_world = ["a.ply"; "b.ply"] ∧
  (attempted abc_hub (Namespace (-3) out false) empty_world = [] ↔
   (-3 = 0 ∨ -3 ≤ - Z.of_nat (length (catalog abc_hub)))%Z).
Proof.
  split; [by_evaluation|].
  apply (main_negative_count abc_hub (Namespace (-3) out false) empty_world
           out_fs).
  - rewrite catalog_abc. discriminate.
  - reflexivity.
  - by_evaluation.
Defined.

(** ** Relocation by the fetcher *)

Lemma fs_rename_file fs src dst d fs2 :
  fs !! src = Some (File d) →
  fs_rename fs src dst = inr fs2 →
  fs2 = <[dst := File d]> (delete src fs).
Proof.
  intros Hsrc. unfold fs_rename. destruct src as [|c src]; [done|].
  rewrite Hsrc. repeat case_match; naive_solver.
Qed.

Lemma fs_rmdir_inr fs p fs' :
  fs_rmdir fs p = inr fs' → fs !! p = Some Dir ∧ fs' = delete p fs.
Proof.
  unfold fs_rmdir. destruct p as [|c p]; [done|].
  repeat case_match; naive_solver.
Qed.

Lemma path_name_snoc (p : path) name : path_name (p ++ [name]) = name.
Proof. unfold path_name. by rewrite last_snoc. Qed.

Lemma path_parent_snoc (p : path) name : path_parent (p ++ [name]) = p.
Proof.
  unfold path_parent. rewrite length_app. simpl.
  replace (length p + 1 - 1) with (length p) by lia.
  by rewrite take_app_length.
Qed.

Lemma path_join_name (p : path) name :
  name ≠ "" → path_join p name = p ++ [name].
Proof. intros Hne. unfold path_join. by destruct (decide (name = "")). Qed.

Lemma fs_lookup_snoc fs (p : path) name :
  fs_lookup fs (p ++ [name]) = fs !! (p ++ [name]).
Proof. unfold fs_lookup. by destruct p. Qed.

(** C4. Let the retrieval of a fetch succeed and leave the file below the
    output directory, under a subdirectory. If the fetch is successful, the
    file has been renamed to the output directory (a). When the rename is
    possible, the fetch is successful (b): it calls, in order, the
    retrieval, the rename and the removal of the directory the file was in;
    it leaves the filesystem of the rename, less that directory when the
    removal succeeds and unchanged when it fails; the file is directly
    inside the output directory, and no longer where it was. *)
Theorem download_ply_file_relocates
    env repo_id filename output_dir w sub name d fs1 :
  let p := output_dir ++ sub ++ [name] in
  let target := output_dir ++ [name] in
  hf_hub_download env repo_id filename "dataset" output_dir (calls w) (disk w)
    = (inr p, fs1) →
  sub ≠ [] →
  name ≠ "" →
  fs1 !! p = Some (File d) →
  (∀ w', download_ply_file env repo_id filename output_dir w = (Normal true, w') →
         ∃ fs2, fs_rename fs1 p target = inr fs2) ∧
  (∀ fs2, fs_rename fs1 p target = inr fs2 →
     let fs3 := after_rmdir fs2 (output_dir ++ sub) in
     download_ply_file env repo_id filename output_dir w =
       (Normal true,
        World fs3
          (stdout w ++
             ["Downloading: " +:+ filename +:+ "...";
              "  SUCCESS: " +:+ name +:+ " (" +:+ format_mb (st_size (File d))
                 +:+ " MB)"])
          (calls w ++
             [CHfHubDownload repo_id filename "dataset" output_dir;
              CRename p target;
              CRmdir (output_dir ++ sub)])) ∧
     fs3 !! target = Some (File d) ∧
     fs3 !! p = None ∧
     (∀ msg, fs_rmdir fs2 (output_dir ++ sub) = inl msg → fs3 = fs2) ∧
     (∀ fs', fs_rmdir fs2 (output_dir ++ sub) = inr fs' →
             fs3 !! (output_dir ++ sub) = None)).
Proof.
  intros p target Hget Hsub Hname Hp.
  assert (p = (output_dir ++ sub) ++ [name]) as Hp'
    by (subst p; by rewrite app_assoc).
  assert (p ≠ target) as Hne.
  { subst p target. intros Heq%(f_equal length).
    rewrite !length_app in Heq. destruct sub; [done | simpl in Heq; lia]. }
  assert (path_join output_dir (path_name p) = target) as Htarget.
  { rewrite Hp', path_name_snoc. by apply path_join_name. }
  assert (path_parent p = output_dir ++ sub) as Hparent
    by (rewrite Hp'; apply path_parent_snoc).
  assert (target = output_dir ++ [name]) as Htgt by done.
  clearbody p target.
  split.
  - intros w' Hok.
    destruct (fs_rename fs1 p target) as [msg|fs2] eqn:Hren; [|by eexists].
    revert Hok.
    unfold download_ply_file, call_hf_hub_download, path_rename. run_M.
    rewrite Hget. simpl. rewrite Htarget.
    case_decide; [|done]. simpl. rewrite Hren. simpl.
    discriminate.
  - intros fs2 Hren fs3.
    pose proof (fs_rename_file _ _ _ _ _ Hp Hren) as Hfs2.
    assert (fs2 !! target = Some (File d)) as Ht2
      by (rewrite Hfs2; apply lookup_insert_eq).
    assert (fs2 !! p = None) as Hp2.
    { rewrite Hfs2, lookup_insert_ne by done. apply lookup_delete_eq. }
    assert (fs3 !! target = Some (File d)) as Ht3.
    { subst fs3. unfold after_rmdir.
      destruct (fs_rmdir fs2 (output_dir ++ sub)) as [msg|fs'] eqn:Hrm; [done|].
      apply fs_rmdir_inr in Hrm as [Hdir ->].
      rewrite lookup_delete_ne; [done|]. intros Heq.
      rewrite Heq, Ht2 in Hdir. discriminate Hdir. }
    split; [|split; [done|split; [|split]]].
    + unfold download_ply_file, call_hf_hub_download, path_rename, path_rmdir,
        path_stat_size, fs_stat_size. run_M.
      rewrite Hget. simpl. rewrite Htarget, Hparent.
      case_decide; [|done]. simpl. rewrite Hren. simpl.
      subst fs3. unfold after_rmdir in *.
      destruct (fs_rmdir fs2 (output_dir ++ sub)) as [msg|fs'] eqn:Hrm; simpl;
        rewrite Htgt, fs_lookup_snoc, <- Htgt, Ht3; simpl;
        rewrite Htgt, path_name_snoc, <- !app_assoc; reflexivity.
    + subst fs3. unfold after_rmdir.
      destruct (fs_rmdir fs2 (output_dir ++ sub)) as [msg|fs'] eqn:Hrm; [done|].
      apply fs_rmdir_inr in Hrm as [_ ->].
      rewrite lookup_delete_ne; [done|].
      rewrite Hp'. intros Heq%(f_equal length).
      rewrite !length_app in Heq. simpl in Heq. lia.
    + intros msg Hrm. subst fs3. unfold after_rmdir. by rewrite Hrm.
    + intros fs' Hrm. subst fs3. unfold after_rmdir. rewrite Hrm.
      apply fs_rmdir_inr in Hrm as [_ ->]. apply lookup_delete_eq.
Qed.

Lemma download_ply_file_relocates_witness :
  (download_ply_file pcd_hub REPO_ID "pcd/scene0000_00.ply" out kept_world).1
    = Normal true ∧
  disk (download_ply_file pcd_hub REPO_ID "pcd/scene0000_00.ply" out kept_world).2
    !! (out ++ ["scene0000_00.ply"]) = Some (File (Opaque 1572864)) ∧
  disk (download_ply_file pcd_hub REPO_ID "pcd/scene0000_00.ply" out kept_world).2
    !! (out ++ ["pcd"]) = Some Dir.
Proof.
  pose (fs1 := (hf_hub_download pcd_hub REPO_ID "pcd/scene0000_00.ply"
                  "dataset" out [] (disk kept_world)).2).
  destruct (download_ply_file_relocates pcd_hub REPO_ID "pcd/scene0000_00.ply"
              out kept_world ["pcd"] "scene0000_00.ply" (Opaque 1572864) fs1)
    as [_ Hmoves];
    [by_evaluation | discriminate | discriminate | by_evaluation |].
  destruct (Hmoves (<[out ++ ["scene0000_00.ply"] := File (Opaque 1572864)]>
                      (delete (out ++ ["pcd"; "scene0000_00.ply"]) fs1)))
    as (Hrun & Htarget & _ & _ & _); [by_evaluation|].
  rewrite Hrun. cbn [fst snd disk]. split; [reflexivity|].
  split; [exact Htarget|]. by_evaluation.
Defined.

(** ** Failures of a fetch *)

(** C5. A fetch never raises: it returns [True] or [False], and when it
    returns [False] the line it prints last reports the failure (a). The
    error of a failed retrieval (b), of a failed rename (c) and of a failed
    [stat] (d) is caught and printed, and the fetch returns [False]. The
    loop of [main] goes on after a failure: from any world it tries every
    file of its list, in order, and collects a sublist of it (e); so a run
    that reaches the loop attempts its whole batch (f). *)
Theorem download_ply_file_contains_failure env repo_id filename output_dir w :
  let announce := "Downloading: " +:+ filename +:+ "..." in
  let report msg :=
    "  ERROR: Failed to download " +:+ filename +:+ ": " +:+ msg in
  let retrieval :=
    hf_hub_download env repo_id filename "dataset" output_dir
      (calls w) (disk w) in
  let retrieve := CHfHubDownload repo_id filename "dataset" output_dir in
  (∃ ok w' line,
     download_ply_file env repo_id filename output_dir w = (Normal ok, w') ∧
     stdout w' = stdout w ++ [announce; line] ∧
     (ok = false → ∃ msg, line = report msg)) ∧
  (∀ msg fs1,
     retrieval = (inl msg, fs1) →
     download_ply_file env repo_id filename output_dir w =
     (Normal false,
      World fs1 (stdout w ++ [announce; report msg]) (calls w ++ [retrieve]))) ∧
  (∀ p fs1 msg,
     retrieval = (inr p, fs1) →
     p ≠ path_join output_dir (path_name p) →
     fs_rename fs1 p (path_join output_dir (path_name p)) = inl msg →
     download_ply_file env repo_id filename output_dir w =
     (Normal false,
      World fs1 (stdout w ++ [announce; report msg])
        (calls w ++
           [retrieve; CRename p (path_join output_dir (path_name p))]))) ∧
  (∀ p fs1 msg,
     retrieval = (inr p, fs1) →
     p = path_join output_dir (path_name p) →
     fs_stat_size fs1 p = inl msg →
     download_ply_file env repo_id filename output_dir w =
     (Normal false,
      World fs1 (stdout w ++ [announce; report msg]) (calls w ++ [retrieve]))) ∧
  (∀ files downloaded,
     ∃ got w',
       for_in files downloaded (fetch_into env output_dir) w =
         (Normal (downloaded ++ got), w') ∧
       fetch_attempts (calls_since w w') = files ∧
       got `sublist_of` files) ∧
  (∀ args fs1,
     catalog env ≠ [] →
     args_list args = false →
     fs_mkdir_parents_exist_ok (disk w) (args_output_dir args) = inr fs1 →
     attempted env args w = batch env args).
Proof.
  intros announce report retrieval retrieve.
  split; [|split; [|split; [|split; [|split]]]].
  - destruct (download_ply_file_run env repo_id filename output_dir w)
      as (ok & w' & cs & line & Hrun & _ & _ & Hout & Hline).
    exists ok, w', line. split; [exact Hrun|]. split; [exact Hout|].
    intros ->. exact Hline.
  - intros msg fs1 Hget. subst retrieval.
    unfold download_ply_file, call_hf_hub_download. run_M.
    rewrite Hget. simpl. by rewrite <- !app_assoc.
  - intros p fs1 msg Hget Hne Hren. subst retrieval.
    unfold download_ply_file, call_hf_hub_download, path_rename. run_M.
    rewrite Hget. simpl. case_decide; [|done]. simpl. rewrite Hren. simpl.
    by rewrite <- !app_assoc.
  - intros p fs1 msg Hget Heq Hstat. subst retrieval.
    unfold download_ply_file, call_hf_hub_download, path_stat_size. run_M.
    rewrite Hget. simpl. case_decide; [done|]. simpl.
    rewrite <- Heq, Hstat. simpl. by rewrite <- !app_assoc.
  - intros files downloaded.
    destruct (fetch_loop_run env output_dir files downloaded w)
      as (got & w' & cs & Hloop & Hcalls & Hatt & Hsub).
    exists got, w'. split; [exact Hloop|]. split; [|exact Hsub].
    by rewrite (calls_since_app w w' cs Hcalls).
  - intros args fs1. apply main_attempts_batch.
Qed.

Lemma download_ply_file_contains_failure_witness :
  attempted flaky_hub (Namespace 5 out false) empty_world
    = ["a.ply"; "b.ply"; "c.ply"] ∧
  stdout (main flaky_hub (Namespace 5 out false) empty_world).2 !! 11%nat =
    Some ("  ERROR: Failed to download b.ply: " +:+
          "404 Client Error: Entry Not Found for b.ply").
Proof.
  split; [|by_evaluation].
  destruct (download_ply_file_contains_failure flaky_hub REPO_ID "b.ply" out
              empty_world) as (_ & _ & _ & _ & _ & Hbatch).
  rewrite (Hbatch (Namespace 5 out false) out_fs).
  - by_evaluation.
  - discriminate.
  - reflexivity.
  - by_evaluation.
Defined.

(** ** Runs that fetch nothing *)

Lemma script_installed env args w :
  packages_installed env = true → script env args w = main env args w.
Proof. unfold script. by intros ->. Qed.

(** C3. With the packages installed, a run with [--list] over a catalog
    that is not empty prints the banner, the size of the catalog and its
    entries numbered from 1, and exits with status 0; the filesystem is as
    it was (no output directory is created), and the listing is the only
    call made: nothing is fetched. *)
Theorem script_list_only env args w :
  packages_installed env = true →
  catalog env ≠ [] →
  args_list args = true →
  script env args w =
    (Raised (SystemExit 0),
     World (disk w)
       (stdout w ++ banner ++
          [found_line env; nl +:+ "Available PLY files:"] ++
          (catalog_line <$> enumerate 1 (catalog env)))
       (calls w ++ [CListRepoFiles REPO_ID "dataset"])) ∧
  exit_status (script env args w).1 = 0%Z ∧
  disk (script env args w).2 = disk w ∧
  calls_since w (script env args w).2 = [CListRepoFiles REPO_ID "dataset"].
Proof.
  intros Hpk Hcat Hlist.
  rewrite (script_installed env args w Hpk),
    (main_list_only env args w Hcat Hlist).
  split; [reflexivity|]. split; [reflexivity|]. split; [reflexivity|].
  by apply calls_since_app.
Qed.

Lemma script_list_only_witness :
  script abc_hub (Namespace 5 out true) empty_world =
    (Raised (SystemExit 0),
     World ∅
       (banner ++
          ["Found 3 PLY files in repository."; nl +:+ "Available PLY files:";
           "  1. a.ply"; "  2. b.ply"; "  3. c.ply"])
       [CListRepoFiles REPO_ID "dataset"]).
Proof.
  destruct (script_list_only abc_hub (Namespace 5 out true) empty_world)
    as [Hrun _].
  - reflexivity.
  - rewrite catalog_abc. discriminate.
  - reflexivity.
  - rewrite Hrun. by_evaluation.
Defined.

(** C7. With the packages installed, a run whose catalog is empty (the
    listing failed, or listed no file ending in [.ply]) prints, last, that
    no files were found and exits with status 1; the filesystem is as it
    was, and the listing is the only call made: no directory is created, no
    file is fetched, no summary is written. *)
Theorem script_empty_catalog env args w :
  packages_installed env = true →
  catalog env = [] →
  script env args w =
    (Raised (SystemExit 1),
     World (disk w)
       (stdout w ++ banner ++
          listing_error (list_repo_files env REPO_ID "dataset") ++
          ["ERROR: No PLY files found in repository."])
       (calls w ++ [CListRepoFiles REPO_ID "dataset"])) ∧
  exit_status (script env args w).1 = 1%Z ∧
  last (stdout (script env args w).2)
    = Some "ERROR: No PLY files found in repository." ∧
  disk (script env args w).2 = disk w ∧
  calls_since w (script env args w).2 = [CListRepoFiles REPO_ID "dataset"].
Proof.
  intros Hpk Hcat.
  rewrite (script_installed env args w Hpk), (main_empty_catalog env args w Hcat).
  split; [reflexivity|]. split; [reflexivity|]. split; [|split; [reflexivity|]].
  - cbn [snd stdout]. by rewrite !app_assoc, last_snoc.
  - by apply calls_since_app.
Qed.

(** A repository without point clouds, and one that cannot be reached *)
Lemma script_empty_catalog_witness :
  exit_status
    (script (hub ["README.md"; "notes.txt"] ∅) (Namespace 5 out false)
       empty_world).1 = 1%Z ∧
  script (Environment true (λ _ _, inl "Connection refused") (hub_download ∅))
    (Namespace 5 out false) empty_world =
    (Raised (SystemExit 1),
     World ∅
       (banner ++
          ["ERROR: Failed to list repository files: Connection refused";
           "ERROR: No PLY files found in repository."])
       [CListRepoFiles REPO_ID "dataset"]).
Proof.
  split.
  - apply (script_empty_catalog (hub ["README.md"; "notes.txt"] ∅)
             (Namespace 5 out false) empty_world); reflexivity.
  - apply (script_empty_catalog
             (Environment true (λ _ _, inl "Connection refused") (hub_download ∅))
             (Namespace 5 out false) empty_world); reflexivity.
Defined.

(** ** The exit status *)






(** ** The summary document *)

Lemma readme_path_snoc output_dir :
  readme_path output_dir = output_dir ++ ["README.md"].
Proof. reflexivity. Qed.

Lemma summary_lines_cons output_dir fs start f files :
  summary_lines output_dir fs start (f :: files) =
  match summary_line output_dir fs (start, f) with
  | Some line => line :: summary_lines output_dir fs (S start) files
  | None => summary_lines output_dir fs (S start) files
  end.
Proof. reflexivity. Qed.

Lemma same_sizes_summary_lines output_dir fsa fsb files :
  ∀ start,
    same_sizes output_dir files fsa fsb →
    summary_lines output_dir fsa start files =
    summary_lines output_dir fsb start files.
Proof.
  unfold same_sizes.
  induction files as [|f files IH]; intros start Hsame; [done|].
  apply Forall_cons in Hsame as [Hf Hrest].
  rewrite !summary_lines_cons, (IH (S start) Hrest).
  unfold summary_line. cbn [fst snd].
  destruct (fs_lookup fsa (local_file output_dir f)) as [na|],
    (fs_lookup fsb (local_file output_dir f)) as [nb|];
    simpl in *; simplify_eq; try done.
  by rewrite Hf.
Qed.

Lemma same_sizes_readme_content output_dir files fsa fsb :
  same_sizes output_dir files fsa fsb →
  readme_content output_dir files fsa = readme_content output_dir files fsb.
Proof.
  intros Hsame. unfold readme_content.
  by rewrite (same_sizes_summary_lines output_dir fsa fsb files 1 Hsame).
Qed.

Lemma fs_write_text_inr fs p data fs' :
  fs_write_text fs p data = inr fs' →
  fs_is_dir fs p = false ∧
  fs_exists fs (path_parent p) = true ∧
  fs_is_dir fs (path_parent p) = true ∧
  fs' = <[p := File (Text data)]> fs.
Proof.
  unfold fs_write_text.
  destruct (fs_is_dir fs p); [done|].
  destruct (fs_exists fs (path_parent p)); [|done].
  destruct (fs_is_dir fs (path_parent p)); [|done].
  simpl. by intros [= <-].
Qed.

Lemma create_readme_normal output_dir files w w' :
  create_readme output_dir files w = (Normal tt, w') →
  fs_write_text (disk w) (readme_path output_dir)
    (readme_content output_dir files (disk w)) = inr (disk w') ∧
  disk w' =
    <[readme_path output_dir :=
        File (Text (readme_content output_dir files (disk w)))]> (disk w).
Proof.
  rewrite create_readme_run. cbv zeta.
  destruct (fs_write_text _ _ _) as [msg|fs'] eqn:Hwr; [done|].
  intros [= <-]. cbn [disk]. split; [done|].
  by apply fs_write_text_inr in Hwr as (_ & _ & _ & ->).
Qed.

Lemma fs_lookup_insert_ne fs (p q : path) n :
  p ≠ q → fs_lookup (<[p := n]> fs) q = fs_lookup fs q.
Proof.
  intros Hne. unfold fs_lookup. destruct q; [done|].
  by rewrite lookup_insert_ne.
Qed.

Lemma local_file_not_readme output_dir f :
  str_name f ≠ "README.md" → readme_path output_dir ≠ local_file output_dir f.
Proof.
  intros Hname. rewrite readme_path_snoc. unfold local_file, path_join.
  destruct (decide (str_name f = "")).
  - intros Heq%(f_equal length). rewrite length_app in Heq. simpl in Heq. lia.
  - intros Heq%app_inv_head. by simplify_eq.
Qed.

(** C8. The text of the summary is a function of the output directory, the
    list of downloaded files and, for each of them, whether its local file
    is there and its size: two writes that succeed over filesystems that
    agree on these leave the same text in the summary document (a).
    Writing again over the filesystem the first write leaves succeeds and
    changes nothing, provided the sizes are as before (b); which they are
    when no downloaded file is itself named README.md, as for every
    entry of a catalog (c). *)
Theorem create_readme_idempotent output_dir downloaded_files :
  (∀ wa wb wa' wb',
     same_sizes output_dir downloaded_files (disk wa) (disk wb) →
     create_readme output_dir downloaded_files wa = (Normal tt, wa') →
     create_readme output_dir downloaded_files wb = (Normal tt, wb') →
     ∃ content,
       disk wa' !! readme_path output_dir = Some (File (Text content)) ∧
       disk wb' !! readme_path output_dir = Some (File (Text content))) ∧
  (∀ w w',
     create_readme output_dir downloaded_files w = (Normal tt, w') →
     same_sizes output_dir downloaded_files (disk w) (disk w') →
     ∃ w'',
       create_readme output_dir downloaded_files w' = (Normal tt, w'') ∧
       disk w'' = disk w') ∧
  (∀ w w',
     create_readme output_dir downloaded_files w = (Normal tt, w') →
     Forall (λ f, str_name f ≠ "README.md") downloaded_files →
     same_sizes output_dir downloaded_files (disk w) (disk w')).
Proof.
  split; [|split].
  - intros wa wb wa' wb' Hsame Ha Hb.
    apply create_readme_normal in Ha as [_ Ha].
    apply create_readme_normal in Hb as [_ Hb].
    exists (readme_content output_dir downloaded_files (disk wa)).
    rewrite Ha, Hb, <- (same_sizes_readme_content _ _ _ _ Hsame).
    by rewrite !lookup_insert_eq.
  - intros w w' Hrun Hsame.
    apply create_readme_normal in Hrun as [Hwr Hdisk].
    apply fs_write_text_inr in Hwr as (Hnd & Hpe & Hpd & _).
    rewrite create_readme_run. cbv zeta.
    rewrite <- (same_sizes_readme_content _ _ _ _ Hsame).
    set (content := readme_content output_dir downloaded_files (disk w)) in *.
    assert (fs_write_text (disk w') (readme_path output_dir) content
            = inr (disk w')) as ->.
    { rewrite readme_path_snoc in *. rewrite path_parent_snoc in *.
      assert (output_dir ++ ["README.md"] ≠ output_dir) as Hne.
      { intros Heq%(f_equal length). rewrite length_app in Heq.
        simpl in Heq. lia. }
      unfold fs_write_text, fs_is_dir, fs_exists in *.
      rewrite path_parent_snoc, fs_lookup_snoc, Hdisk.
      rewrite (fs_lookup_insert_ne _ _ _ _ Hne), lookup_insert_eq.
      rewrite Hpe, Hpd. rewrite bool_decide_eq_false_2 by discriminate.
      simpl. by rewrite insert_insert_eq. }
    by eexists.
  - intros w w' Hrun Hnames.
    apply create_readme_normal in Hrun as [_ Hdisk].
    unfold same_sizes. rewrite Hdisk.
    eapply Forall_impl; [exact Hnames|]. intros f Hf. simpl.
    by rewrite (fs_lookup_insert_ne _ _ _ _ (local_file_not_readme _ _ Hf)).
Qed.

Lemma create_readme_idempotent_witness :
  (create_readme out ["a.ply"; "b.ply"]
     (create_readme out ["a.ply"; "b.ply"] pruned_world).2).1 = Normal tt ∧
  disk (create_readme out ["a.ply"; "b.ply"]
          (create_readme out ["a.ply"; "b.ply"] pruned_world).2).2 =
  disk (create_readme out ["a.ply"; "b.ply"] pruned_world).2.
Proof.
  assert (create_readme out ["a.ply"; "b.ply"] pruned_world =
          (Normal tt, (create_readme out ["a.ply"; "b.ply"] pruned_world).2))
    as Hfirst by by_evaluation.
  destruct (create_readme_idempotent out ["a.ply"; "b.ply"])
    as (_ & Hagain & Hsizes).
  destruct (Hagain pruned_world _ Hfirst) as (w'' & Hrun & Hdisk).
  - apply (Hsizes pruned_world _ Hfirst). by_evaluation.
  - rewrite Hrun. split; [reflexivity | exact Hdisk].
Defined.

Lemma summary_lines_present output_dir fs files :
  ∀ start,
    summary_lines output_dir fs start files =
    entry_line output_dir fs <$> present output_dir fs (enumerate start files).
Proof.
  induction files as [|f files IH]; intros start; [done|].
  rewrite summary_lines_cons, IH. unfold present.
  change (enumerate start (f :: files))
    with ((start, f) :: enumerate (S start) files).
  rewrite filter_cons. unfold summary_line, entry_line, size_at. cbn [fst snd].
  destruct (fs_exists fs (local_file output_dir f)) eqn:Hex.
  - rewrite decide_True by done.
    apply fs_exists_lookup in Hex. destruct Hex as [n Hn].
    rewrite fmap_cons. cbn [fst snd]. rewrite !Hn. reflexivity.
  - rewrite decide_False by (intros H; exact H).
    apply not_true_iff_false in Hex. rewrite fs_exists_lookup in Hex.
    destruct (fs_lookup fs (local_file output_dir f)) as [n|] eqn:Hn;
      [by destruct Hex | done].
Qed.

Lemma present_names output_dir fs files :
  ∀ start,
    (present output_dir fs (enumerate start files)).*2 =
    filter (λ f, fs_exists fs (local_file output_dir f)) files.
Proof.
  unfold present.
  induction files as [|f files IH]; intros start; [done|].
  change (enumerate start (f :: files))
    with ((start, f) :: enumerate (S start) files).
  rewrite !filter_cons. cbn [fst snd].
  destruct (decide (fs_exists fs (local_file output_dir f)));
    cbn [fmap list_fmap snd]; by rewrite IH.
Qed.

Lemma string_rev_app_append s1 :
  ∀ s2 s3, String.rev_app s1 s2 +:+ s3 = String.rev_app s1 (s2 +:+ s3).
Proof.
  induction s1 as [|c s1 IH]; intros s2 s3; simpl; [done|].
  by rewrite IH, string_app_cons.
Qed.

Lemma split_slash_go_slash_free name :
  ∀ cur,
    slash_free name = true →
    split_slash_go cur name = [String.rev cur +:+ name].
Proof.
  induction name as [|c name IH]; intros cur Hfree; simpl.
  - by rewrite string_app_nil_r.
  - simpl in Hfree. apply andb_true_iff in Hfree as [Hc Hfree].
    apply negb_true_iff in Hc. rewrite Hc, (IH _ Hfree).
    unfold String.rev. simpl. by rewrite !string_rev_app_append.
Qed.

Lemma split_slash_go_last dir name :
  ∀ cur,
    slash_free name = true →
    ∃ l, split_slash_go cur (dir +:+ "/" +:+ name) = l ++ [name].
Proof.
  induction dir as [|c dir IH]; intros cur Hfree.
  - change ("" +:+ "/" +:+ name) with (String "/" name). simpl.
    rewrite (split_slash_go_slash_free name "" Hfree).
    by exists [String.rev cur].
  - rewrite string_app_cons. simpl. destruct (Ascii.eqb c "/").
    + destruct (IH "" Hfree) as [l ->]. by exists (String.rev cur :: l).
    + by apply IH.
Qed.

(** [Path(s).name] is what follows the last separator of [s]. *)
Lemma str_name_dir dir name :
  slash_free name = true → name ≠ "" → name ≠ "." →
  str_name (dir +:+ "/" +:+ name) = name.
Proof.
  intros Hfree Hne Hdot. unfold str_name, path_parts, split_slash.
  destruct (split_slash_go_last dir name "" Hfree) as [l ->].
  rewrite filter_app, filter_cons_True, filter_nil by done.
  unfold path_name. by rewrite last_snoc.
Qed.

Lemma str_name_plain name :
  slash_free name = true → name ≠ "" → name ≠ "." →
  str_name name = name.
Proof.
  intros Hfree Hne Hdot. unfold str_name, path_parts, split_slash.
  rewrite (split_slash_go_slash_free name "" Hfree).
  change (String.rev "" +:+ name) with name.
  by rewrite filter_cons_True, filter_nil.
Qed.

Lemma unlines_cons_app l ls s :
  unlines (l :: ls) +:+ s = l +:+ nl +:+ unlines ls +:+ s.
Proof. unfold unlines. cbn [foldr]. by rewrite !string_app_assoc. Qed.

(** C10. [create_readme] writes (or fails to write) the text of the
    source's template: its header, whose third line reports the length of
    the list of downloaded files, then one numbered line for each
    downloaded file whose local file is there when the summary is written,
    in order, then its footer. The files that have a line are exactly the
    downloaded files whose local file exists; a file that is missing has
    no line, and then the count of the header exceeds the number of lines.
    The local file of a downloaded filename is the entry of the output
    directory under the final component of the filename, whatever the
    directories the filename names. *)
Theorem create_readme_enumerates output_dir downloaded_files w :
  let entries :=
    present output_dir (disk w) (enumerate 1 downloaded_files) in
  let line (e : nat * string) :=
    pretty e.1 +:+ ". `" +:+ path_name (local_file output_dir e.2) +:+
    "` (" +:+ format_mb (size_at (disk w) (local_file output_dir e.2)) +:+
    " MB)" +:+ nl in
  let content :=
    "# SpatialLM3D Sample Scenes" +:+ nl +:+
    nl +:+
    "This directory contains " +:+ pretty (length downloaded_files) +:+
      " sample PLY files from the SpatialLM-Testset dataset." +:+ nl +:+
    nl +:+
    "## Dataset Source" +:+ nl +:+
    nl +:+
    "- Repository: HuggingFace `manycore-research/SpatialLM-Testset`" +:+
      nl +:+
    "- License: CC-BY-NC-4.0 (Non-commercial use, academic/educational projects allowed)" +:+
      nl +:+
    "- URL: https://huggingface.co/datasets/manycore-research/SpatialLM-Testset" +:+
      nl +:+
    nl +:+
    "## Files" +:+ nl +:+
    nl +:+
    str_concat (line <$> entries) +:+
    nl +:+
    "## Usage" +:+ nl +:+
    nl +:+
    "1. Launch SpatialLM3D Desktop application" +:+ nl +:+
    "2. Click " +:+ dquote +:+ "Select PLY File" +:+ dquote +:+ " button" +:+
      nl +:+
    "3. Navigate to this `Samples/` directory" +:+ nl +:+
    "4. Select any `.ply` file to analyze" +:+ nl +:+
    nl +:+
    "## Notes" +:+ nl +:+
    nl +:+
    "- These files are for demonstration and testing purposes" +:+ nl +:+
    "- Ensure you have sufficient memory to load large point clouds" +:+
      nl +:+
    "- Processing time varies based on scene complexity" +:+ nl in
  (∃ o w',
     create_readme output_dir downloaded_files w = (o, w') ∧
     calls w' = calls w ++ [CWriteText (readme_path output_dir) content] ∧
     (o = Normal tt →
      disk w' !! readme_path output_dir = Some (File (Text content)))) ∧
  entries.*2 =
    filter (λ f, fs_exists (disk w) (local_file output_dir f))
      downloaded_files ∧
  (length entries ≤ length downloaded_files)%nat ∧
  (∀ f, f ∈ downloaded_files →
        fs_exists (disk w) (local_file output_dir f) = false →
        (length entries < length downloaded_files)%nat ∧
        pretty (length entries) ≠ pretty (length downloaded_files)) ∧
  (∀ dir name,
     slash_free name = true → name ≠ "" → name ≠ "." →
     local_file output_dir (dir +:+ "/" +:+ name) = output_dir ++ [name] ∧
     local_file output_dir name = output_dir ++ [name]).
Proof.
  intros entries line content.
  assert (content = readme_content output_dir downloaded_files (disk w))
    as Hcontent.
  { unfold content, entries, readme_content.
    rewrite summary_lines_present.
    unfold readme_header, readme_footer.
    rewrite !unlines_cons_app, !string_app_assoc. reflexivity. }
  assert (entries.*2 =
          filter (λ f, fs_exists (disk w) (local_file output_dir f))
            downloaded_files) as Hnames by apply present_names.
  assert (length entries = length (entries.*2)) as Hlen
    by (by rewrite length_fmap).
  split; [|split; [exact Hnames|split; [|split]]].
  - rewrite Hcontent, create_readme_run. cbv zeta.
    destruct (fs_write_text _ _ _) as [msg|fs'] eqn:Hwr;
      eexists _, _; (split; [reflexivity|]); (split; [reflexivity|]);
      [discriminate|].
    intros _. apply fs_write_text_inr in Hwr as (_ & _ & _ & ->).
    apply lookup_insert_eq.
  - rewrite Hlen, Hnames. apply length_filter.
  - intros f Hin Hgone.
    assert (length entries < length downloaded_files)%nat as Hlt.
    { rewrite Hlen, Hnames.
      apply (length_filter_lt _ _ f Hin). rewrite Hgone. intros H; exact H. }
    split; [exact Hlt|].
    intros Heq%(inj pretty). lia.
  - intros dir name Hfree Hne Hdot. unfold local_file, path_join.
    rewrite (str_name_dir dir name Hfree Hne Hdot),
      (str_name_plain name Hfree Hne Hdot).
    by rewrite decide_False by exact Hne.
Qed.

Lemma create_readme_enumerates_witness :
  ((length (present out (disk pruned_world)
              (enumerate 1 ["pcd/a.ply"; "pcd/b.ply"])) < 2)%nat ∧
   local_file out "pcd/b.ply" = out ++ ["b.ply"]) ∧
  disk (create_readme out ["pcd/a.ply"; "pcd/b.ply"] pruned_world).2
    !! readme_path out =
  Some (File (Text (
    "# SpatialLM3D Sample Scenes" +:+ nl +:+
    nl +:+
    "This directory contains " +:+ "2" +:+
      " sample PLY files from the SpatialLM-Testset dataset." +:+ nl +:+
    nl +:+
    "## Dataset Source" +:+ nl +:+
    nl +:+
    "- Repository: HuggingFace `manycore-research/SpatialLM-Testset`" +:+
      nl +:+
    "- License: CC-BY-NC-4.0 (Non-commercial use, academic/educational projects allowed)" +:+
      nl +:+
    "- URL: https://huggingface.co/datasets/manycore-research/SpatialLM-Testset" +:+
      nl +:+
    nl +:+
    "## Files" +:+ nl +:+
    nl +:+
    "1. `a.ply` (1.50 MB)" +:+ nl +:+
    nl +:+
    "## Usage" +:+ nl +:+
    nl +:+
    "1. Launch SpatialLM3D Desktop application" +:+ nl +:+
    "2. Click " +:+ dquote +:+ "Select PLY File" +:+ dquote +:+ " button" +:+
      nl +:+
    "3. Navigate to this `Samples/` directory" +:+ nl +:+
    "4. Select any `.ply` file to analyze" +:+ nl +:+
    nl +:+
    "## Notes" +:+ nl +:+
    nl +:+
    "- These files are for demonstration and testing purposes" +:+ nl +:+
    "- Ensure you have sufficient memory to load large point clouds" +:+
      nl +:+
    "- Processing time varies based on scene complexity" +:+ nl))).
Proof.
  split; [|by_evaluation].
  destruct (create_readme_enumerates out ["pcd/a.ply"; "pcd/b.ply"]
              pruned_world) as (_ & _ & _ & Hmissing & Hlocal).
  split.
  - apply (Hmissing "pcd/b.ply").
    + by_evaluation.
    + reflexivity.
  - apply (Hlocal "pcd" "b.ply"); [reflexivity | discriminate | discriminate].
Defined.


(** * Further properties *)

(** ** The lister across runs *)

(** X1. The catalog does not depend on the order in which the remote
    listing enumerates the files: two listings that are permutations of
    each other make [list_available_scenes] return the same list and leave
    the same world. *)
Theorem list_available_scenes_order_independent env1 env2 repo_id w l1 l2 :
  list_repo_files env1 repo_id "dataset" = inr l1 →
  list_repo_files env2 repo_id "dataset" = inr l2 →
  l1 ≡ₚ l2 →
  list_available_scenes env1 repo_id w = list_available_scenes env2 repo_id w.
Proof.
  intros H1 H2 Hperm. rewrite !list_available_scenes_run, H1, H2.
  do 2 f_equal. unfold catalog_of. symmetry. apply sorted_unique.
  - rewrite sorted_Permutation. by rewrite Hperm.
  - apply Sorted_merge_sort. apply _.
Qed.

Lemma list_available_scenes_order_independent_witness :
  list_available_scenes abc_hub REPO_ID empty_world =
  list_available_scenes
    (hub ["b.ply"; "notes.txt"; "a.ply"; "c.ply"] ∅) REPO_ID empty_world.
Proof.
  apply (list_available_scenes_order_independent abc_hub
           (hub ["b.ply"; "notes.txt"; "a.ply"; "c.ply"] ∅) REPO_ID empty_world
           ["c.ply"; "a.ply"; "notes.txt"; "b.ply"]
           ["b.ply"; "notes.txt"; "a.ply"; "c.ply"]).
  - reflexivity.
  - reflexivity.
  - apply (bool_decide_unpack _). vm_compute. exact I.
Defined.

(** ** What a fetch does to the world *)



(** X2. A fetch always returns, and the calls it makes are determined by
    what the retrieval answers. When the retrieval fails, it is the only
    call. When it returns the path [p] of the file retrieved, and [p] is
    already the entry of the output directory under its own name, the
    retrieval is again the only call; otherwise the fetch goes on to rename
    [p] to that entry and, if the rename succeeds, to remove the directory
    [p] was in. No other call is made: a fetch creates no directory and
    writes no file of its own. *)
Theorem download_ply_file_calls env repo_id filename output_dir w :
  let retrieval := CHfHubDownload repo_id filename "dataset" output_dir in
  ∃ ok w',
    download_ply_file env repo_id filename output_dir w = (Normal ok, w') ∧
    calls w' =
    calls w ++
    match hf_hub_download env repo_id filename "dataset" output_dir
            (calls w) (disk w) with
    | (inl _, _) => [retrieval]
    | (inr p, fs1) =>
        let target := path_join output_dir (path_name p) in
        if decide (p = target) then [retrieval]
        else
          match fs_rename fs1 p target with
          | inl _ => [retrieval; CRename p target]
          | inr _ => [retrieval; CRename p target; CRmdir (path_parent p)]
          end
    end.
Proof.
  intros retrieval. unfold retrieval.
  unfold download_ply_file, call_hf_hub_download, path_rename, path_rmdir,
    path_stat_size. run_M.
  destruct (hf_hub_download env repo_id filename "dataset" output_dir
              (calls w) (disk w)) as [[msg|p] fs1]; simpl.
  { eexists false, _. split; reflexivity. }
  destruct (decide (p = path_join output_dir (path_name p))) as [Heq|Hne].
  - rewrite decide_False by (by intros []). simpl.
    destruct (fs_stat_size _ _) as [msg'|size]; simpl;
      eexists _, _; split; reflexivity.
  - rewrite decide_True by exact Hne. simpl.
    destruct (fs_rename fs1 p _) as [msg|fs2]; simpl.
    { eexists false, _. split; [reflexivity|]. cbn [calls].
      by rewrite <- !app_assoc. }
    destruct (fs_rmdir fs2 _) as [msg|fs3]; simpl;
      (destruct (fs_stat_size _ _) as [msg'|size]; simpl;
       eexists _, _; (split; [reflexivity|]); cbn [calls];
       by rewrite <- !app_assoc).
Qed.

Lemma download_ply_file_calls_witness :
  calls (download_ply_file pcd_hub REPO_ID "pcd/scene0000_00.ply" out
           kept_world).2 =
  [CHfHubDownload REPO_ID "pcd/scene0000_00.ply" "dataset" out;
   CRename (out ++ ["pcd"; "scene0000_00.ply"]) (out ++ ["scene0000_00.ply"]);
   CRmdir (out ++ ["pcd"])].
Proof.
  destruct (download_ply_file_calls pcd_hub REPO_ID "pcd/scene0000_00.ply" out
              kept_world) as (ok & w' & Hrun & Hcalls).
  rewrite Hrun. cbn [snd]. rewrite Hcalls. by_evaluation.
Defined.





(** X4. When the retrieval returns a path that is already the file's place
    directly under the output directory, the fetch renames nothing and
    removes nothing: the retrieval is its only call and the filesystem is
    the one the retrieval left. It returns [True] exactly when there is an
    entry at that path. *)
Theorem download_ply_file_in_place env repo_id filename output_dir w p fs1 :
  hf_hub_download env repo_id filename "dataset" output_dir (calls w) (disk w)
    = (inr p, fs1) →
  p = path_join output_dir (path_name p) →
  ∃ ok w',
    download_ply_file env repo_id filename output_dir w = (Normal ok, w') ∧
    disk w' = fs1 ∧
    calls w' =
      calls w ++ [CHfHubDownload repo_id filename "dataset" output_dir] ∧
    (ok = true ↔ fs_exists fs1 p = true).
Proof.
  intros Hget Hp.
  unfold download_ply_file, call_hf_hub_download, path_stat_size,
    fs_stat_size. run_M.
  rewrite Hget. simpl. case_decide; [done|]. simpl. rewrite <- Hp.
  destruct (fs_lookup fs1 p) as [n|] eqn:Hn; simpl; eexists _, _;
    (split; [reflexivity|]); simpl; (split; [reflexivity|]);
    (split; [reflexivity|]).
  - split; [|done]. intros _. apply fs_exists_lookup. rewrite Hn. by eexists.
  - split; [done|]. intros Hex%fs_exists_lookup.
    rewrite Hn in Hex. by destruct Hex.
Qed.

Lemma download_ply_file_in_place_witness :
  disk (download_ply_file abc_hub REPO_ID "a.ply" out (World out_fs [] [])).2
    = <[out ++ ["a.ply"] := File (Opaque 1572864)]> out_fs ∧
  (download_ply_file abc_hub REPO_ID "a.ply" out (World out_fs [] [])).1
    = Normal true.
Proof.
  destruct (download_ply_file_in_place abc_hub REPO_ID "a.ply" out
              (World out_fs [] []) (out ++ ["a.ply"])
              (<[out ++ ["a.ply"] := File (Opaque 1572864)]> out_fs))
    as (ok & w' & Hrun & Hdisk & _ & Hok).
  - by_evaluation.
  - reflexivity.
  - rewrite Hrun. cbn [fst snd]. split; [exact Hdisk|].
    f_equal. apply Hok. by_evaluation.
Defined.

Lemma fs_rename_file_ok fs src dst fs2 :
  (∃ d, fs !! src = Some (File d)) →
  fs_rename fs src dst = inr fs2 →
  ∀ q, q ≠ src → q ≠ dst → fs2 !! q = fs !! q.
Proof.
  intros [d Hsrc] Hren q Hq1 Hq2.
  rewrite (fs_rename_file _ _ _ _ _ Hsrc Hren).
  by rewrite lookup_insert_ne, lookup_delete_ne.
Qed.

(** X5. A fetch that relocates a regular file changes at most three entries
    of the filesystem the retrieval left: the place the file was retrieved
    to, its place under the output directory, and the directory it was in.
    Every other entry is as the retrieval left it; in particular, of
    several nested directories only the innermost is removed. *)
Theorem download_ply_file_frame env repo_id filename output_dir w w' p fs1 d :
  hf_hub_download env repo_id filename "dataset" output_dir (calls w) (disk w)
    = (inr p, fs1) →
  fs1 !! p = Some (File d) →
  download_ply_file env repo_id filename output_dir w = (Normal true, w') →
  ∀ q, q ≠ p →
       q ≠ path_join output_dir (path_name p) →
       q ≠ path_parent p →
       disk w' !! q = fs1 !! q.
Proof.
  intros Hget Hp Hrun q Hq1 Hq2 Hq3. revert Hrun.
  unfold download_ply_file, call_hf_hub_download, path_rename, path_rmdir,
    path_stat_size. run_M.
  rewrite Hget. simpl. case_decide; simpl.
  - destruct (fs_rename fs1 p _) as [msg|fs2] eqn:Hren; simpl; [done|].
    pose proof (fs_rename_file_ok _ _ _ _ (ex_intro _ d Hp) Hren q Hq1 Hq2)
      as Hq.
    destruct (fs_rmdir fs2 _) as [msg|fs3] eqn:Hrm; simpl;
      (destruct (fs_stat_size _ _) as [msg'|size]; simpl; [done|]);
      intros [= <-]; simpl; [done|].
    apply fs_rmdir_inr in Hrm as [_ ->]. by rewrite lookup_delete_ne.
  - destruct (fs_stat_size _ _) as [msg'|size]; simpl; [done|].
    by intros [= <-].
Qed.

Lemma download_ply_file_frame_witness :
  disk (download_ply_file nested_hub REPO_ID "scans/room1/a.ply" out
          (World out_fs [] [])).2 !! (out ++ ["scans"]) = Some Dir ∧
  disk (download_ply_file nested_hub REPO_ID "scans/room1/a.ply" out
          (World out_fs [] [])).2 !! (out ++ ["scans"; "room1"]) = None ∧
  disk (download_ply_file nested_hub REPO_ID "scans/room1/a.ply" out
          (World out_fs [] [])).2 !! (out ++ ["a.ply"])
    = Some (File (Opaque 393216)).
Proof.
  split; [|split; by_evaluation].
  rewrite (download_ply_file_frame nested_hub REPO_ID "scans/room1/a.ply" out
             (World out_fs [] []) _ (out ++ ["scans"; "room1"; "a.ply"])
             (hf_hub_download nested_hub REPO_ID "scans/room1/a.ply" "dataset"
                out [] out_fs).2 (Opaque 393216)).
  - by_evaluation.
  - by_evaluation.
  - by_evaluation.
  - by_evaluation.
  - discriminate.
  - discriminate.
  - discriminate.
Defined.

(** ** The batch, whatever the count *)

Lemma slice_to_prefix {A} (l : list A) stop : slice_to l stop `prefix_of` l.
Proof. unfold slice_to. apply prefix_take. Qed.

Lemma catalog_of_ply answer :
  Forall (λ f, ∃ stem, f = stem +:+ ".ply") (catalog_of answer).
Proof.
  destruct answer as [msg|all_files]; simpl; [constructor|].
  rewrite sorted_Permutation. apply Forall_forall. intros f Hf.
  apply list_elem_of_filter in Hf as [Hf _].
  apply endswith_spec. by apply Is_true_true.
Qed.

(** X6. Whatever the requested count (negative, zero, larger than the
    catalog), the files a run attempts to fetch are a prefix of the
    catalog: never more than the catalog holds, each one a name ending in
    [.ply], in increasing lexicographic order. *)
Theorem main_attempts_prefix env args w fs1 :
  catalog env ≠ [] →
  args_list args = false →
  fs_mkdir_parents_exist_ok (disk w) (args_output_dir args) = inr fs1 →
  attempted env args w `prefix_of` catalog env ∧
  (length (attempted env args w) ≤ length (catalog env))%nat ∧
  Forall (λ f, ∃ stem, f = stem +:+ ".ply") (attempted env args w) ∧
  StronglySorted String.le (attempted env args w).
Proof.
  intros Hcat Hlist Hmk.
  rewrite (main_attempts_batch env args w fs1 Hcat Hlist Hmk).
  assert (batch env args `prefix_of` catalog env) as Hpre
    by apply slice_to_prefix.
  split; [exact Hpre|]. split; [by apply prefix_length|].
  destruct Hpre as [rest Hrest].
  pose proof (catalog_of_ply (list_repo_files env REPO_ID "dataset")) as Hply.
  pose proof (sorted_StronglySorted
                (filter (λ f, endswith f ".ply")
                   (match list_repo_files env REPO_ID "dataset" with
                    | inr all_files => all_files
                    | inl _ => []
                    end))) as Hsorted.
  assert (catalog env =
          sorted (filter (λ f, endswith f ".ply")
                    (match list_repo_files env REPO_ID "dataset" with
                     | inr all_files => all_files
                     | inl _ => []
                     end))) as Hc.
  { unfold catalog, catalog_of.
    by destruct (list_repo_files env REPO_ID "dataset"). }
  rewrite <- Hc in Hsorted. fold (catalog env) in Hply.
  rewrite Hrest in Hply, Hsorted. split.
  - by apply Forall_app in Hply as [? _].
  - by apply StronglySorted_app_1_l in Hsorted.
Qed.

Lemma main_attempts_prefix_witness :
  attempted abc_hub (Namespace 100 out false) empty_world
    `prefix_of` catalog abc_hub ∧
  (length (attempted abc_hub (Namespace (-2) out false) empty_world)
     ≤ length (catalog abc_hub))%nat.
Proof.
  split.
  - apply (main_attempts_prefix abc_hub (Namespace 100 out false) empty_world
             out_fs); [rewrite catalog_abc; discriminate | reflexivity |].
    by_evaluation.
  - apply (main_attempts_prefix abc_hub (Namespace (-2) out false) empty_world
             out_fs); [rewrite catalog_abc; discriminate | reflexivity |].
    by_evaluation.
Defined.

Lemma for_in_nil {A S} (s : S) (body : A → S → M S) w :
  for_in [] s body w = (Normal s, w).
Proof. reflexivity. Qed.

(** X7. With a count of 0 a run that is not list-only creates the output
    directory, attempts no retrieval and writes no summary; it reports
    0 files out of 0, warns that nothing was downloaded and exits with
    status 1. *)
Theorem main_count_zero env args w fs1 :
  catalog env ≠ [] →
  args_list args = false →
  fs_mkdir_parents_exist_ok (disk w) (args_output_dir args) = inr fs1 →
  args_count args = 0%Z →
  main env args w =
    (Raised (SystemExit 1),
     World fs1
       (stdout w ++ banner ++ [found_line env] ++
          [nl +:+ "Output directory: " +:+ str_path (args_output_dir args);
           nl +:+ "Downloading 0 sample files...";
           str_mul "-" 70;
           str_mul "-" 70;
           nl +:+ "Download complete: 0/0 files successful";
           nl +:+ "WARNING: No files were downloaded successfully."])
       (calls w ++ [CListRepoFiles REPO_ID "dataset";
                    CMkdir (args_output_dir args)])).
Proof.
  intros Hcat Hlist Hmk Hzero.
  rewrite (main_download env args w fs1 Hcat Hlist Hmk).
  assert (Z.min (args_count args) (Z.of_nat (length (catalog env))) = 0%Z)
    as Hmin by lia.
  assert (batch env args = []) as Hbatch.
  { unfold batch. rewrite Hmin. by rewrite slice_to_nonneg. }
  rewrite Hbatch, for_in_nil. cbv zeta.
  rewrite bool_decide_eq_false_2 by (by intros []).
  unfold fetch_start, complete_line, download_intro, printed.
  rewrite Hmin. cbn [disk stdout calls length]. by rewrite <- !app_assoc.
Qed.

Lemma main_count_zero_witness :
  exit_status (main abc_hub (Namespace 0 out false) empty_world).1 = 1%Z ∧
  calls (main abc_hub (Namespace 0 out false) empty_world).2 =
    [CListRepoFiles REPO_ID "dataset"; CMkdir out].
Proof.
  rewrite (main_count_zero abc_hub (Namespace 0 out false) empty_world out_fs).
  - split; reflexivity.
  - rewrite catalog_abc. discriminate.
  - reflexivity.
  - by_evaluation.
  - reflexivity.
Defined.

(** ** When the summary is written *)






(** ** A run that cannot create its output directory *)

(** X9. When the output directory cannot be created, a run that is not
    list-only stops there with the error of [mkdir], which nothing
    catches: the exit status is 1, no retrieval is attempted, the
    filesystem is as it was, and the last line printed is the count of the
    catalog. *)
Theorem script_mkdir_fails env args w msg :
  packages_installed env = true →
  catalog env ≠ [] →
  args_list args = false →
  fs_mkdir_parents_exist_ok (disk w) (args_output_dir args) = inl msg →
  script env args w =
    (Raised (Exception msg),
     World (disk w) (stdout w ++ banner ++ [found_line env])
       (calls w ++ [CListRepoFiles REPO_ID "dataset";
                    CMkdir (args_output_dir args)])) ∧
  exit_status (script env args w).1 = 1%Z ∧
  attempted env args w = [].
Proof.
  intros Hpk Hcat Hlist Hmk. unfold attempted.
  rewrite (script_installed env args w Hpk),
    (main_mkdir_fails env args w msg Hcat Hlist Hmk).
  split; [reflexivity|]. split; [reflexivity|].
  unfold calls_since. cbn [snd calls]. by rewrite drop_app_length.
Qed.

Lemma script_mkdir_fails_witness :
  script abc_hub (Namespace 5 out false) file_world =
    (Raised (Exception "[Errno 17] File exists: '/home/user/Samples'"),
     World (disk file_world)
       (banner ++ ["Found 3 PLY files in repository."])
       [CListRepoFiles REPO_ID "dataset"; CMkdir out]).
Proof.
  destruct (script_mkdir_fails abc_hub (Namespace 5 out false) file_world
              "[Errno 17] File exists: '/home/user/Samples'") as [Hrun _].
  - reflexivity.
  - rewrite catalog_abc. discriminate.
  - reflexivity.
  - by_evaluation.
  - rewrite Hrun. by_evaluation.
Defined.

(** ** Options that list-only mode does not read *)

(** X12. With [--list] the run reads neither the count nor the output
    directory: two command lines that both ask for the list behave the
    same, whatever their other options. *)
Theorem script_list_ignores_options env args1 args2 w :
  args_list args1 = true →
  args_list args2 = true →
  script env args1 w = script env args2 w.
Proof.
  intros H1 H2. unfold script.
  destruct (packages_installed env); [|reflexivity].
  destruct (decide (catalog env = [])) as [Hcat|Hcat].
  - by rewrite !main_empty_catalog.
  - by rewrite (main_list_only env args1 w Hcat H1),
               (main_list_only env args2 w Hcat H2).
Qed.

Lemma script_list_ignores_options_witness :
  script abc_hub (Namespace 5 out true) empty_world =
  script abc_hub (Namespace (-7) ["tmp"] true) empty_world.
Proof.
  apply (script_list_ignores_options abc_hub (Namespace 5 out true)
           (Namespace (-7) ["tmp"] true) empty_world); reflexivity.
Defined.

(** ** What the summary writer touches, and how it numbers *)

(** X10. [create_readme] changes nothing but the summary document: every
    other entry of the filesystem, the downloaded files among them, is as
    it was. It succeeds exactly when the output directory is a directory
    and the name of the summary document is not taken by a directory;
    otherwise it raises, having changed and printed nothing. *)
Theorem create_readme_frame output_dir downloaded_files w :
  ∃ o w',
    create_readme output_dir downloaded_files w = (o, w') ∧
    (∀ q, q ≠ readme_path output_dir → disk w' !! q = disk w !! q) ∧
    (o = Normal tt ↔
     fs_is_dir (disk w) output_dir = true ∧
     fs_is_dir (disk w) (readme_path output_dir) = false) ∧
    (o = Normal tt →
     stdout w' =
       stdout w ++ [nl +:+ "Created: " +:+ str_path (readme_path output_dir)]) ∧
    (o ≠ Normal tt → disk w' = disk w ∧ stdout w' = stdout w).
Proof.
  rewrite create_readme_run. cbv zeta.
  set (content := readme_content output_dir downloaded_files (disk w)).
  assert (fs_is_dir (disk w) output_dir = true →
          fs_exists (disk w) output_dir = true) as Hdir_ex.
  { unfold fs_is_dir, fs_exists. intros Hd%bool_decide_eq_true.
    apply bool_decide_eq_true. rewrite Hd. by eexists. }
  destruct (fs_write_text (disk w) (readme_path output_dir) content)
    as [msg|fs'] eqn:Hwr; eexists _, _; (split; [reflexivity|]);
    cbn [disk stdout].
  - split; [done|]. split; [|split; [done|done]].
    split; [done|]. intros [Hd Hr]. revert Hwr.
    unfold fs_write_text. rewrite Hr, readme_path_snoc, path_parent_snoc.
    by rewrite (Hdir_ex Hd), Hd.
  - apply fs_write_text_inr in Hwr as (Hr & _ & Hd & ->).
    rewrite readme_path_snoc, path_parent_snoc in Hd.
    split; [|split; [|split; [done|done]]].
    + intros q Hq. by rewrite lookup_insert_ne.
    + split; [|done]. intros _. by rewrite readme_path_snoc in *.
Qed.

Lemma create_readme_frame_witness :
  disk (create_readme out ["a.ply"; "b.ply"] pruned_world).2
    !! (out ++ ["a.ply"]) = Some (File (Opaque 1572864)) ∧
  (create_readme out ["a.ply"] blocked_world).1 ≠ Normal tt.
Proof.
  split.
  - destruct (create_readme_frame out ["a.ply"; "b.ply"] pruned_world)
      as (o & w' & Hrun & Hframe & _).
    rewrite Hrun. cbn [snd]. rewrite Hframe; [by_evaluation | discriminate].
  - destruct (create_readme_frame out ["a.ply"] blocked_world)
      as (o & w' & Hrun & _ & Hok & _).
    rewrite Hrun. cbn [fst]. intros Ho. apply Hok in Ho as [_ Hr].
    revert Hr. apply not_false_iff_true. by_evaluation.
Defined.

Lemma elem_of_enumerate {A} (l : list A) :
  ∀ start i x,
    (i, x) ∈ enumerate start l ↔
    ∃ k, i = (start + k)%nat ∧ l !! k = Some x.
Proof.
  induction l as [|y l IH]; intros start i x.
  - simpl. split; [by intros ?%elem_of_nil | by intros (k & _ & ?)].
  - change (enumerate start (y :: l))
      with ((start, y) :: enumerate (S start) l).
    rewrite elem_of_cons, IH. split.
    + intros [[= -> ->]|(k & -> & Hk)].
      * exists 0%nat. split; [lia | done].
      * exists (S k). split; [lia | done].
    + intros ([|k] & -> & Hk).
      * left. simpl in Hk. injection Hk as <-. f_equal. lia.
      * right. exists k. split; [lia | done].
Qed.

(** X11. The lines of the summary are numbered by the position of the file
    in the list of downloaded files, counted from 1, not by the rank among
    the lines written: the text [create_readme] writes has a line exactly
    for each position [k] whose file is there, and that line carries the
    number [k + 1], so a missing file leaves a gap in the numbering. *)
Theorem create_readme_numbering output_dir downloaded_files w :
  let lines := summary_lines output_dir (disk w) 1 downloaded_files in
  (∃ o w',
     create_readme output_dir downloaded_files w = (o, w') ∧
     calls w' =
       calls w ++
       [CWriteText (readme_path output_dir)
          (readme_header (length downloaded_files) +:+ str_concat lines +:+
           readme_footer)]) ∧
  ∀ line,
    line ∈ lines ↔
    ∃ k f n,
      downloaded_files !! k = Some f ∧
      fs_lookup (disk w) (local_file output_dir f) = Some n ∧
      line = readme_entry (S k) (path_name (local_file output_dir f))
               (st_size n).
Proof.
  intros lines. split.
  - rewrite create_readme_run. cbv zeta.
    destruct (fs_write_text _ _ _) as [msg|fs']; eexists _, _;
      (split; reflexivity).
  - intros line. subst lines. unfold summary_lines.
    rewrite list_elem_of_omap. split.
    + intros ([i f] & Hin & Hline).
      apply elem_of_enumerate in Hin as (k & -> & Hk).
      unfold summary_line in Hline. cbn [fst snd] in Hline.
      destruct (fs_lookup (disk w) (local_file output_dir f)) as [n|] eqn:Hn;
        [|done].
      injection Hline as <-. by exists k, f, n.
    + intros (k & f & n & Hk & Hn & ->). exists (S k, f).
      split; [apply elem_of_enumerate; by exists k|].
      unfold summary_line. cbn [fst snd]. by rewrite Hn.
Qed.

Lemma create_readme_numbering_witness :
  ("2. `a.ply` (1.50 MB)" +:+ nl)
    ∈ summary_lines out (disk pruned_world) 1 ["b.ply"; "a.ply"] ∧
  length (summary_lines out (disk pruned_world) 1 ["b.ply"; "a.ply"]) = 1%nat.
Proof.
  split; [|by_evaluation].
  apply (create_readme_numbering out ["b.ply"; "a.ply"] pruned_world).
  exists 1%nat, "a.ply", (File (Opaque 1572864)).
  split; [reflexivity|]. split; by_evaluation.
Defined.

(** ** No file twice, and the total the run announces *)

Lemma catalog_of_NoDup all_files :
  NoDup all_files → NoDup (catalog_of (inr all_files)).
Proof.
  intros Hnd. simpl. rewrite sorted_Permutation. by apply NoDup_filter.
Qed.

(** X13. When the remote listing names no file twice, a run attempts no
    retrieval twice. *)
Theorem main_attempts_NoDup env args w fs1 all_files :
  list_repo_files env REPO_ID "dataset" = inr all_files →
  NoDup all_files →
  catalog env ≠ [] →
  args_list args = false →
  fs_mkdir_parents_exist_ok (disk w) (args_output_dir args) = inr fs1 →
  NoDup (attempted env args w).
Proof.
  intros Hlisting Hnd Hcat Hlist Hmk.
  rewrite (main_attempts_batch env args w fs1 Hcat Hlist Hmk).
  destruct (slice_to_prefix (catalog env)
              (Z.min (args_count args) (Z.of_nat (length (catalog env)))))
    as [rest Hrest].
  fold (batch env args) in Hrest.
  pose proof (catalog_of_NoDup all_files Hnd) as Hc.
  rewrite <- Hlisting in Hc. fold (catalog env) in Hc.
  rewrite Hrest in Hc. by apply NoDup_app in Hc as [? _].
Qed.

Lemma main_attempts_NoDup_witness :
  NoDup (attempted abc_hub (Namespace 5 out false) empty_world).
Proof.
  apply (main_attempts_NoDup abc_hub (Namespace 5 out false) empty_world out_fs
           ["c.ply"; "a.ply"; "notes.txt"; "b.ply"]).
  - reflexivity.
  - apply (bool_decide_unpack _). vm_compute. exact I.
  - rewrite catalog_abc. discriminate.
  - reflexivity.
  - by_evaluation.
Defined.

(** X14. A run that reaches the loop prints, after it, the number of files
    fetched over the count clamped to the size of the catalog. That total
    is the number of retrievals attempted exactly when the requested count
    is not negative: for a negative count the run announces and reports a
    negative total while it attempts the files the slice selects. *)
Theorem main_reports_clamped_count env args w fs1 :
  catalog env ≠ [] →
  args_list args = false →
  fs_mkdir_parents_exist_ok (disk w) (args_output_dir args) = inr fs1 →
  let total :=
    Z.min (args_count args) (Z.of_nat (length (catalog env))) in
  (∃ downloaded,
     downloaded `sublist_of` attempted env args w ∧
     (nl +:+ "Download complete: " +:+ pretty (length downloaded) +:+ "/" +:+
        pretty total +:+ " files successful")
       ∈ stdout (main env args w).2) ∧
  (Z.of_nat (length (attempted env args w)) = total ↔
   (0 ≤ args_count args)%Z).
Proof.
  intros Hcat Hlist Hmk total. split.
  - rewrite (main_attempts_batch env args w fs1 Hcat Hlist Hmk).
    rewrite (main_download env args w fs1 Hcat Hlist Hmk).
    destruct (fetch_loop_run env (args_output_dir args) (batch env args) []
                (fetch_start env args w fs1))
      as (got & w2 & cs & Hloop & _ & _ & Hsub).
    rewrite app_nil_l in Hloop. rewrite Hloop. cbv zeta.
    exists got. split; [exact Hsub|].
    fold total. change (nl +:+ "Download complete: " +:+ pretty (length got)
                          +:+ "/" +:+ pretty total +:+ " files successful")
      with (complete_line env args got).
    destruct (bool_decide (got ≠ [])).
    + rewrite create_readme_run. cbv zeta.
      destruct (fs_write_text _ _ _); cbn [snd printed stdout];
        rewrite !elem_of_app, !elem_of_cons; auto 10.
    + cbn [snd printed stdout]. rewrite !elem_of_app, !elem_of_cons. auto 10.
  - rewrite (main_attempts_batch env args w fs1 Hcat Hlist Hmk).
    assert (0 < Z.of_nat (length (catalog env)))%Z as Hn.
    { destruct (catalog env); [done | simpl; lia]. }
    unfold batch. fold total. destruct (Z.ltb_spec (args_count args) 0).
    + rewrite slice_to_neg by lia. rewrite length_take. lia.
    + rewrite slice_to_nonneg by lia. rewrite length_take. lia.
Qed.

Lemma main_reports_clamped_count_witness :
  (Z.of_nat (length (attempted abc_hub (Namespace (-1) out false) empty_world))
   = Z.min (-1) (Z.of_nat (length (catalog abc_hub))) ↔ (0 ≤ -1)%Z) ∧
  stdout (main abc_hub (Namespace (-1) out false) empty_world).2 !! 13%nat =
    Some (nl +:+ "Download complete: 2/-1 files successful").
Proof.
  split; [|by_evaluation].
  apply (main_reports_clamped_count abc_hub (Namespace (-1) out false)
           empty_world out_fs).
  - rewrite catalog_abc. discriminate.
  - reflexivity.
  - by_evaluation.
Defined.
